(* Verification of the decision core of the gold trading assistant
   (osegonte/trading-bot): the verdict aggregator (utils/helpers.py),
   the trade planner (core/trade_plan.py), the real-time outcome verifier
   (core/verification.py), the council ledger (grading/council.py) and the
   level ledger (grading/levels.py).

   Numbers that are Python floats in the source are modelled as exact
   rationals (Q); Python's round(x) and round(x, n) are modelled as
   round-half-to-even on the exact value.  Configuration constants are those
   of config/config.example.py. *)

From Stdlib Require Import QArith Qround Qminmax Qabs ZArith Lia Lqa List.
From stdpp Require Import base gmap strings.
Import ListNotations.

Open Scope Q_scope.

(* ------------------------------------------------------------------ *)
(** * Python rounding *)
(* ------------------------------------------------------------------ *)

Module PyRound.

(** round(q): nearest integer, ties to the even neighbour. *)
Definition round_half_even (q : Q) : Z :=
  let f := Qfloor q in
  match Qcompare (q - inject_Z f) (1 # 2) with
  | Lt => f
  | Gt => (f + 1)%Z
  | Eq => if Z.even f then f else (f + 1)%Z
  end.

(** round(q, n); the result is kept in lowest terms, so that two equal
    rounded values are equal as Rocq terms, as two equal floats are.
    Prices are modelled as exact decimals, so this rounds the exact
    rational value; Python rounds the binary double nearest to it, which
    can fall on the other side of a decimal tie (round(2.675, 2) is 2.67). *)
Definition round_nd (q : Q) (n : nat) : Q :=
  Qred (inject_Z (round_half_even (q * inject_Z (10 ^ Z.of_nat n))) /
        inject_Z (10 ^ Z.of_nat n)).

End PyRound.
Import PyRound.

(* ------------------------------------------------------------------ *)
(** * Configuration (config/config.example.py) *)
(* ------------------------------------------------------------------ *)

Definition PIP_SIZE : Q := 1 # 100.
Definition PIP_VALUE_PER_LOT : Q := 1.
Definition BROKER_MIN_LOT : Q := 1 # 100.
Definition BROKER_LOT_STEP : Q := 1 # 100.
Definition BROKER_MAX_LOT : Q := 50.
Definition RISK_PER_TRADE : Q := 1 # 100.
Definition RR_TARGET : Q := 2.
Definition ATR_PERIOD : nat := 14.
Definition ATR_MULTIPLIER : Q := 3 # 2.
Definition VERIFICATION_WINDOW_BARS : Z := 120.
Definition ASSUMED_SPREAD : Q := 5 # 100.
Definition INITIAL_BALANCE : Q := 20.

(** RISK_MODE: "LEVEL_STRICT" or anything else (the code's else-branch,
    "SAFER"). *)
Inductive RiskMode := LEVEL_STRICT | SAFER.

Definition RISK_MODE : RiskMode := SAFER.

(** The verdict strings "BUY", "SELL", "NEUTRAL". *)
Inductive Verdict := BUY | SELL | NEUTRAL.

Definition verdict_eqb (a b : Verdict) : bool :=
  match a, b with
  | BUY, BUY | SELL, SELL | NEUTRAL, NEUTRAL => true
  | _, _ => false
  end.

(** One row of the OHLC DataFrame, with its (UTC, seconds) index. *)
Record Bar := mkBar {
  bar_time : Z;
  Open : Q; High : Q; Low : Q; Close : Q; Volume : Q
}.

(* ------------------------------------------------------------------ *)
(** * Trade planner (core/trade_plan.py) *)
(* ------------------------------------------------------------------ *)

Module TradePlan.

(** The value of atr.iloc[-1]: None (empty series), NaN, or a number. *)
Inductive Atr := AtrNone | AtrNaN | AtrNum (a : Q).

(** tr = max(High-Low, |High-prev Close|, |Low-prev Close|); on the first
    row the previous close is NaN, which max(axis=1) skips. *)
Fixpoint true_ranges_from (prev_close : Q) (df : list Bar) : list Q :=
  match df with
  | [] => []
  | b :: rest =>
      Qmax (Qmax (High b - Low b) (Qabs (High b - prev_close)))
           (Qabs (Low b - prev_close))
      :: true_ranges_from (Close b) rest
  end.

Definition true_ranges (df : list Bar) : list Q :=
  match df with
  | [] => []
  | b :: rest => (High b - Low b) :: true_ranges_from (Close b) rest
  end.

Definition Qsum (l : list Q) : Q := fold_right Qplus 0 l.

(** calculate_atr: last value of tr.rolling(window=period).mean(). *)
Definition calculate_atr (df : list Bar) (period : nat) : Atr :=
  let tr := true_ranges df in
  match tr with
  | [] => AtrNone
  | _ =>
      if (length tr <? period)%nat then AtrNaN
      else AtrNum (Qsum (skipn (length tr - period) tr) / inject_Z (Z.of_nat period))
  end.

Definition calculate_lot_size (risk_amount : Q) (stop_pips : Z) : Q :=
  if (stop_pips <=? 0)%Z then BROKER_MIN_LOT
  else
    let lots := risk_amount / (inject_Z stop_pips * PIP_VALUE_PER_LOT) in
    let lots := inject_Z (round_half_even (lots / BROKER_LOT_STEP)) * BROKER_LOT_STEP in
    let lots := Qmax BROKER_MIN_LOT (Qmin lots BROKER_MAX_LOT) in
    round_nd lots 2.

Record Plan := mkPlan {
  direction : Verdict;
  entry : Q;
  sl : Q;
  tp : Q;
  lots : Q;
  stop_pips : Z;
  tp_pips : Z;
  rr : Q;
  risk_amount : Q;
  potential_loss : Q;
  potential_gain : Q;
  atr : Q
}.

(** What create_trade_plan does: return None, raise (round(nan) raises
    ValueError), or return a plan dict. *)
Inductive PlanResult := PlanNone | PlanRaises | PlanSome (p : Plan).

Definition create_trade_plan (risk_mode : RiskMode) (df : list Bar)
    (dir : Verdict) (balance : Q) : PlanResult :=
  match last df with
  | None => PlanNone
  | Some last_bar =>
  let entry_price := round_nd (Close last_bar) 2 in
  match calculate_atr df ATR_PERIOD with
  | AtrNone => PlanNone
  | AtrNaN => PlanRaises
  | AtrNum a =>
    if Qle_bool a 0 then PlanNone else
    let stop_distance := ATR_MULTIPLIER * a in
    let stop_pips := round_half_even (stop_distance / PIP_SIZE) in
    let tp_pips := round_half_even (RR_TARGET * inject_Z stop_pips) in
    let '(sl_price, tp_price) :=
      match dir with
      | BUY =>
          (round_nd (entry_price - inject_Z stop_pips * PIP_SIZE) 2 - ASSUMED_SPREAD,
           round_nd (entry_price + inject_Z tp_pips * PIP_SIZE) 2)
      | _ =>
          (round_nd (entry_price + inject_Z stop_pips * PIP_SIZE) 2 + ASSUMED_SPREAD,
           round_nd (entry_price - inject_Z tp_pips * PIP_SIZE) 2)
      end in
    let risk_amount :=
      match risk_mode with
      | LEVEL_STRICT => (20 # 100) * balance
      | SAFER => RISK_PER_TRADE * balance
      end in
    let lots := calculate_lot_size risk_amount stop_pips in
    let potential_loss := inject_Z stop_pips * PIP_VALUE_PER_LOT * lots in
    let potential_gain := inject_Z tp_pips * PIP_VALUE_PER_LOT * lots in
    PlanSome (mkPlan dir entry_price sl_price tp_price lots stop_pips tp_pips
                RR_TARGET (round_nd risk_amount 2) (round_nd potential_loss 2)
                (round_nd potential_gain 2) (round_nd a 2))
  end
  end.

End TradePlan.

(** Fourteen one-minute bars whose whole range is a tenth of a cent. *)
Definition tiny_range_bars : list Bar :=
  repeat (mkBar 0 2650 (2650001 # 1000) 2650 2650 0) 14.

(* ------------------------------------------------------------------ *)
(** * Real-time outcome verifier (core/verification.py) *)
(* ------------------------------------------------------------------ *)

Module Verify.

(** The result strings of the verifier. *)
Inductive Outcome := WIN | LOSS | EXPIRED | PENDING | ERROR.

(** The returned dict: 'result', 'exit_price', 'bars', 'rr' and, on the
    error path, 'error'. *)
Record VerifyResult := mkResult {
  result : Outcome;
  exit_price : option Q;
  bars : Z;
  rr : Q;
  error : option string
}.

(** A datetime as seconds on its own clock, with its UTC offset in seconds
    when it is timezone-aware (None for a naive datetime). *)
Record DateTime := mkDateTime { dt_seconds : Z; dt_utcoffset : option Z }.

(** Step 1: a naive entry time is localized to UTC, an aware one is
    converted to UTC. *)
Definition to_utc (t : DateTime) : Z :=
  match dt_utcoffset t with
  | None => dt_seconds t
  | Some off => (dt_seconds t - off)%Z
  end.

(** The outcome of get_ohlc_data(period="5d", interval="1m", candles=200):
    it raises, returns None, or returns a DataFrame whose index (bar_time)
    is already normalized to UTC seconds (step 4). *)
Inductive Fetch := FetchRaises (msg : string) | FetchNone | FetchDf (df : list Bar).

Definition no_hit (bars_elapsed : Z) : VerifyResult :=
  mkResult PENDING None bars_elapsed 0 None.

(** Step 6: the candle loop; i is the enumerate index. *)
Fixpoint scan_candles (dir : Verdict) (sl_price tp_price : Q) (i : Z)
    (rows : list Bar) : option VerifyResult :=
  match rows with
  | [] => None
  | candle :: rest =>
      let bars_elapsed := (i + 1)%Z in
      match dir with
      | BUY =>
          if Qle_bool (Low candle) sl_price then
            if Qle_bool tp_price (High candle)
            then Some (mkResult LOSS (Some sl_price) bars_elapsed (-1) None)
            else Some (mkResult LOSS (Some sl_price) bars_elapsed (-1) None)
          else if Qle_bool tp_price (High candle)
          then Some (mkResult WIN (Some tp_price) bars_elapsed 2 None)
          else scan_candles dir sl_price tp_price (i + 1) rest
      | _ =>
          if Qle_bool sl_price (High candle) then
            if Qle_bool (Low candle) tp_price
            then Some (mkResult LOSS (Some sl_price) bars_elapsed (-1) None)
            else Some (mkResult LOSS (Some sl_price) bars_elapsed (-1) None)
          else if Qle_bool (Low candle) tp_price
          then Some (mkResult WIN (Some tp_price) bars_elapsed 2 None)
          else scan_candles dir sl_price tp_price (i + 1) rest
      end
  end.

(** verify_trade_realtime; [now] is datetime.now(pytz.UTC) in UTC
    seconds. *)
Definition verify_trade_realtime (now : Z) (entry_time : DateTime)
    (dir : Verdict) (entry_price sl_price tp_price : Q) (fetch : Fetch)
    : VerifyResult :=
  let entry_time_utc := to_utc entry_time in
  let time_since_entry := inject_Z (now - entry_time_utc) / 60 in
  if negb (Qle_bool time_since_entry (inject_Z VERIFICATION_WINDOW_BARS)) then
    mkResult EXPIRED None VERIFICATION_WINDOW_BARS 0 None
  else
    match fetch with
    | FetchRaises msg => mkResult ERROR None 0 0 (Some msg)
    | FetchNone => no_hit 0
    | FetchDf [] => no_hit 0
    | FetchDf df =>
        let df_after_entry :=
          List.filter (fun c => Z.ltb entry_time_utc (bar_time c)) df in
        match df_after_entry with
        | [] => no_hit 0
        | _ =>
            match scan_candles dir sl_price tp_price 0 df_after_entry with
            | Some r => r
            | None => no_hit (Z.of_nat (length df_after_entry))
            end
        end
    end.

(** The stop and target conditions of the loop, per direction. *)
Definition stop_hit (dir : Verdict) (sl_price : Q) (c : Bar) : bool :=
  match dir with
  | BUY => Qle_bool (Low c) sl_price
  | _ => Qle_bool sl_price (High c)
  end.

Definition target_hit (dir : Verdict) (tp_price : Q) (c : Bar) : bool :=
  match dir with
  | BUY => Qle_bool tp_price (High c)
  | _ => Qle_bool (Low c) tp_price
  end.

(** A bar that meets neither the stop nor the target condition. *)
Definition no_trigger (dir : Verdict) (sl_price tp_price : Q) (c : Bar) : Prop :=
  stop_hit dir sl_price c = false /\ target_hit dir tp_price c = false.

(** The spec's scenario: entry 2650.00 BUY, stop 2645.00, target
    2660.00; bar 3 has low 2644.00 and high 2661.00. *)
Definition scenario_bars : list Bar :=
  [ mkBar 60 2650 2652 2648 2651 0;
    mkBar 120 2651 2655 2647 2650 0;
    mkBar 180 2650 2661 2644 2646 0;
    mkBar 240 2646 2670 2640 2665 0 ].

End Verify.

(** Fourteen bars with a range of one dollar each (ATR = 1). *)
Definition dollar_range_bars : list Bar :=
  repeat (mkBar 0 2650 2651 2650 (26505 # 10) 0) 14.

(* ------------------------------------------------------------------ *)
(** * Level ledger (grading/levels.py) *)
(* ------------------------------------------------------------------ *)

Module Levels.
Import Verify.

Record LevelState := mkLevel { level : Z; balance : Q; target : Q }.

(** A row of the append-only levels table (the timestamp column is left
    out). *)
Record LevelRow := mkRow {
  row_level : Z; row_balance : Q; row_target : Q;
  row_result : Outcome; row_mode : RiskMode
}.

(** get_current_level: the last row of the table, or the defaults. *)
Definition get_current_level (table : list LevelRow) : LevelState :=
  match last table with
  | Some r => mkLevel (row_level r) (row_balance r) (row_target r)
  | None => mkLevel 1 INITIAL_BALANCE (INITIAL_BALANCE * (6 # 5))
  end.

(** update_level(pnl, result) under the configured RISK_MODE: appends one
    row and returns the new state. *)
Definition update_level (risk_mode : RiskMode) (table : list LevelRow)
    (pnl : Q) (res : Outcome) : LevelState * list LevelRow :=
  let current := get_current_level table in
  let new_balance := balance current + pnl in
  let '(new_level, new_balance, new_target) :=
    match risk_mode with
    | LEVEL_STRICT =>
        let '(new_level, new_balance) :=
          match res with
          | WIN => ((level current + 1)%Z, balance current * (6 # 5))
          | _ => (Z.max 1 (level current - 1), balance current / (6 # 5))
          end in
        (new_level, new_balance, new_balance * (6 # 5))
    | SAFER =>
        let new_level := level current in
        if Qle_bool (target current) new_balance then
          ((new_level + 1)%Z, new_balance, new_balance * (6 # 5))
        else if Qle_bool new_balance (balance current / (6 # 5)) then
          (Z.max 1 (new_level - 1), new_balance, new_balance * (6 # 5))
        else (new_level, new_balance, target current)
    end in
  let row := mkRow new_level (round_nd new_balance 2) (round_nd new_target 2)
               res risk_mode in
  (mkLevel new_level (round_nd new_balance 2) (round_nd new_target 2),
   table ++ [row]).

End Levels.

(* ------------------------------------------------------------------ *)
(** * Council ledger (grading/council.py) *)
(* ------------------------------------------------------------------ *)

Module Council.
Import Verify.

(** A row of the council table, keyed by member. *)
Record CouncilRow := mkCouncilRow {
  correct : Z; incorrect : Z; neutral : Z; total_r : Q; trade_count : Z;
  accuracy : Q; expectancy : Q; weight : Q
}.

(** The column defaults of CREATE TABLE council. *)
Definition default_row : CouncilRow := mkCouncilRow 0 0 0 0 0 0 0 1.

Definition members : list string :=
  ["trend"; "candlestick"; "sr"; "volume"; "rsi"; "macd"; "bollinger"; "macro"].

(** init_council: INSERT OR IGNORE a default row for every member. *)
Definition init_council (table : gmap string CouncilRow) : gmap string CouncilRow :=
  fold_left (fun t member =>
               match t !! member with
               | Some _ => t
               | None => <[member := default_row]> t
               end) members table.

(** SET neutral = neutral + 1 *)
Definition inc_neutral (r : CouncilRow) : CouncilRow :=
  mkCouncilRow (correct r) (incorrect r) (neutral r + 1) (total_r r)
    (trade_count r) (accuracy r) (expectancy r) (weight r).

(** SET correct = correct + 1, total_r = total_r + ?, trade_count = trade_count + 1 *)
Definition record_win (rr_realized : Q) (r : CouncilRow) : CouncilRow :=
  mkCouncilRow (correct r + 1) (incorrect r) (neutral r) (total_r r + rr_realized)
    (trade_count r + 1) (accuracy r) (expectancy r) (weight r).

(** SET incorrect = incorrect + 1, total_r = total_r + ?, trade_count = trade_count + 1 *)
Definition record_loss (rr_realized : Q) (r : CouncilRow) : CouncilRow :=
  mkCouncilRow (correct r) (incorrect r + 1) (neutral r) (total_r r + rr_realized)
    (trade_count r + 1) (accuracy r) (expectancy r) (weight r).

(** One iteration of the loop over module_verdicts.items(); an UPDATE of
    a member without a row changes nothing ([alter]). *)
Definition grade_module (trade_direction : Verdict) (trade_result : Outcome)
    (rr_realized : Q) (table : gmap string CouncilRow) (mv : string * Verdict)
    : gmap string CouncilRow :=
  let '(module, verdict) := mv in
  match verdict with
  | NEUTRAL => alter inc_neutral module table
  | _ =>
      if negb (verdict_eqb verdict trade_direction) then table
      else match trade_result with
           | WIN => alter (record_win rr_realized) module table
           | LOSS => alter (record_loss rr_realized) module table
           | _ => table
           end
  end.

(** round(correct / total_graded * 100, 1), 0 if total_graded = 0 *)
Definition compute_accuracy (c i : Z) : Q :=
  let total_graded := (c + i)%Z in
  round_nd (if (0 <? total_graded)%Z
            then inject_Z c / inject_Z total_graded * 100 else 0) 1.

(** round(total_r / trade_count, 2), 0 if trade_count = 0 *)
Definition compute_expectancy (tr : Q) (n : Z) : Q :=
  round_nd (if (0 <? n)%Z then tr / inject_Z n else 0) 2.

Definition recompute_row (r : CouncilRow) : CouncilRow :=
  mkCouncilRow (correct r) (incorrect r) (neutral r) (total_r r) (trade_count r)
    (compute_accuracy (correct r) (incorrect r))
    (compute_expectancy (total_r r) (trade_count r)) (weight r).

Definition grade_council (table : gmap string CouncilRow)
    (module_verdicts : list (string * Verdict)) (trade_direction : Verdict)
    (trade_result : Outcome) (rr_realized : Q) : gmap string CouncilRow :=
  recompute_row <$>
    fold_left (grade_module trade_direction trade_result rr_realized)
      module_verdicts table.

(** A sequence of calls to grade_council, one per graded trade. *)
Definition grade_all (table : gmap string CouncilRow)
    (gradings : list (list (string * Verdict) * Verdict * Outcome * Q))
    : gmap string CouncilRow :=
  fold_left (fun t g => let '(vs, d, res, rr) := g in grade_council t vs d res rr)
    gradings table.

(** The effect of one (module, verdict) pair on that module's row. *)
Definition grade_effect (trade_direction : Verdict) (trade_result : Outcome)
    (rr_realized : Q) (verdict : Verdict) : CouncilRow -> CouncilRow :=
  match verdict with
  | NEUTRAL => inc_neutral
  | _ =>
      if negb (verdict_eqb verdict trade_direction) then fun r => r
      else match trade_result with
           | WIN => record_win rr_realized
           | LOSS => record_loss rr_realized
           | _ => fun r => r
           end
  end.

Definition outcome_eqb (a b : Outcome) : bool :=
  match a, b with
  | WIN, WIN | LOSS, LOSS | EXPIRED, EXPIRED | PENDING, PENDING | ERROR, ERROR => true
  | _, _ => false
  end.

(** How many of the gradings have the given result. *)
Fixpoint count_result (res : Outcome)
    (gradings : list (list (string * Verdict) * Verdict * Outcome * Q)) : Z :=
  match gradings with
  | [] => 0
  | (_, _, r, _) :: gs => ((if outcome_eqb r res then 1 else 0) + count_result res gs)%Z
  end.

(** A row whose derived columns agree with its counters. *)
Definition consistent (r : CouncilRow) : Prop :=
  accuracy r = compute_accuracy (correct r) (incorrect r) /\
  expectancy r = compute_expectancy (total_r r) (trade_count r).

(** trend agrees with a BUY that wins once and loses twice. *)
Definition one_win_two_losses : list (list (string * Verdict) * Verdict * Outcome * Q) :=
  [ ([("trend", BUY)], BUY, WIN, 2);
    ([("trend", BUY)], BUY, LOSS, -1);
    ([("trend", BUY)], BUY, LOSS, -1) ].

(** The body of init_council's loop over the members. *)
Definition init_step (t : gmap string CouncilRow) (member : string) : gmap string CouncilRow :=
  match t !! member with
  | Some _ => t
  | None => <[member := default_row]> t
  end.

(** The four counters of a row (correct, incorrect, neutral, trade_count),
    which a table built by init_council and grade_council keeps
    non-negative. *)
Definition counters_nonneg (r : CouncilRow) : Prop :=
  (0 <= correct r)%Z /\ (0 <= incorrect r)%Z /\ (0 <= neutral r)%Z /\
  (0 <= trade_count r)%Z.

End Council.

(* ------------------------------------------------------------------ *)
(** * Verdict aggregator (utils/helpers.py) *)
(* ------------------------------------------------------------------ *)

Module Aggregate.

(** WEIGHTS of config.example.py, and WEIGHTS.get(module, 0.5). *)
Definition WEIGHTS : list (string * Q) :=
  [("trend", 1); ("candlestick", 1); ("sr", 1); ("volume", 1);
   ("rsi", 1 # 2); ("macd", 1 # 2); ("bollinger", 1 # 2)].

Definition weight_of (module : string) : Q :=
  match find (fun kv => bool_decide (kv.1 = module)) WEIGHTS with
  | Some (_, w) => w
  | None => 1 # 2
  end.

Definition BUY_THRESHOLD : Q := 2.
Definition SELL_THRESHOLD : Q := -2.
Definition CONF_BASE : Z := 50.
Definition CONF_HALF_WEIGHT : Z := 5.
Definition CONF_MACRO_ALIGN : Z := 10.
Definition CONF_MACRO_CONTRA : Z := -10.
Definition CONF_CAP : Z := 90.

Definition score_map (v : Verdict) : Q :=
  match v with BUY => 1 | SELL => -1 | NEUTRAL => 0 end.

(** The loop state: total_score, buy_modules, sell_modules. *)
Record Tally := mkTally { total_score : Q; buy_modules : list string; sell_modules : list string }.

Definition tally_step (acc : Tally) (mv : string * Verdict) : Tally :=
  let '(module, verdict) := mv in
  let module_score := score_map verdict * weight_of module in
  let total := total_score acc + module_score in
  match verdict with
  | BUY => mkTally total (buy_modules acc ++ [module]) (sell_modules acc)
  | SELL => mkTally total (buy_modules acc) (sell_modules acc ++ [module])
  | NEUTRAL => mkTally total (buy_modules acc) (sell_modules acc)
  end.

Definition tally (verdicts : list (string * Verdict)) : Tally :=
  fold_left tally_step verdicts (mkTally 0 [] []).

(** The technical verdict before the macro gate. *)
Definition technical_of (total : Q) : Verdict :=
  if Qle_bool BUY_THRESHOLD total then BUY
  else if Qle_bool total SELL_THRESHOLD then SELL
  else NEUTRAL.

(** aggregate_verdicts_with_macro: (final_verdict, round(total_score, 1),
    confidence, macro_adjusted). *)
Definition aggregate_verdicts_with_macro (verdicts : list (string * Verdict))
    (macro_verdict : Verdict) : Verdict * Q * Z * bool :=
  let t := tally verdicts in
  let technical_verdict := technical_of (total_score t) in
  let '(final_verdict, macro_adjusted) :=
    match technical_verdict, macro_verdict with
    | BUY, SELL => (NEUTRAL, true)
    | SELL, BUY => (NEUTRAL, true)
    | _, _ => (technical_verdict, false)
    end in
  let aligned_count :=
    match technical_verdict with
    | BUY => length (buy_modules t)
    | _ => length (sell_modules t)
    end in
  let confidence := (CONF_BASE + Z.of_nat aligned_count * CONF_HALF_WEIGHT)%Z in
  let confidence :=
    match final_verdict with
    | NEUTRAL => confidence
    | _ =>
        if verdict_eqb macro_verdict final_verdict then (confidence + CONF_MACRO_ALIGN)%Z
        else match macro_verdict with
             | NEUTRAL => confidence
             | _ => (confidence + CONF_MACRO_CONTRA)%Z
             end
    end in
  let confidence := Z.min confidence CONF_CAP in
  let confidence := Z.max confidence 30 in
  (final_verdict, round_nd (total_score t) 1, confidence, macro_adjusted).

Definition count_verdict (v : Verdict) (verdicts : list (string * Verdict)) : nat :=
  length (List.filter (fun mv => verdict_eqb mv.2 v) verdicts).

End Aggregate.

(* ------------------------------------------------------------------ *)
(** * Percentages (utils/helpers.py) *)
(* ------------------------------------------------------------------ *)

Module Helpers.

(** calculate_percentage(wins, total) on the integer counts the bot passes:
    0 when total == 0, else round(wins / total * 100, 1). *)
Definition calculate_percentage (wins total : Z) : Q :=
  if (total =? 0)%Z then 0
  else round_nd (inject_Z wins / inject_Z total * 100) 1.

End Helpers.

(* ------------------------------------------------------------------ *)
(** * The /grade command (telegram_bot/bot.py) *)
(* ------------------------------------------------------------------ *)

Module GradeCommand.
Import Verify Levels Council.

(** The graded trade's row (result, exit_price, bars_to_hit, pnl of the
    trades table) together with the two ledgers the command updates. *)
Record GradeState := mkGradeState {
  st_result : option Outcome;
  st_exit : option Q;
  st_bars : option Z;
  st_pnl : option Q;
  st_council : gmap string CouncilRow;
  st_levels : list LevelRow
}.

(** The body of grade() once the trade row is loaded and
    verify_trade_realtime has returned [result_data]: an already graded
    trade and a PENDING result return early; otherwise pnl and rr_realized
    are set from the result, the trade row is updated, the council is graded
    when there are verdicts and the result is WIN or LOSS, and the level
    ledger is updated for WIN and LOSS only. *)
Definition grade_trade (st : GradeState) (verdicts : list (string * Verdict))
    (direction : Verdict) (rr_target risk_amount potential_gain : Q)
    (result_data : VerifyResult) : GradeState :=
  match st_result st with
  | Some _ => st
  | None =>
      match result result_data with
      | PENDING => st
      | r =>
          let '(pnl, rr_realized) :=
            match r with
            | WIN => (potential_gain, rr_target)
            | LOSS => (- risk_amount, -1)
            | _ => (0, 0)
            end in
          let win_or_loss := match r with WIN | LOSS => true | _ => false end in
          let council' :=
            if match verdicts with [] => false | _ => true end && win_or_loss
            then grade_council (st_council st) verdicts direction r rr_realized
            else st_council st in
          let levels' :=
            if win_or_loss then snd (update_level RISK_MODE (st_levels st) pnl r)
            else st_levels st in
          mkGradeState (Some r) (exit_price result_data) (Some (bars result_data))
            (Some pnl) council' levels'
      end
  end.

End GradeCommand.

(* ------------------------------------------------------------------ *)
(** * Mirrored votes *)
(* ------------------------------------------------------------------ *)

Module Mirror.

(** BUY and SELL exchanged. *)
Definition flip_verdict (v : Verdict) : Verdict :=
  match v with BUY => SELL | SELL => BUY | NEUTRAL => NEUTRAL end.

Definition flip_verdicts (vs : list (string * Verdict)) : list (string * Verdict) :=
  map (fun mv => (mv.1, flip_verdict mv.2)) vs.

End Mirror.

(* ================================================================== *)
(** * Properties *)
(* ================================================================== *)

(** ** Rounding *)

Lemma round_half_even_Z (q : Q) (z : Z) :
  q == inject_Z z -> round_half_even q = z.
Proof.
  intros H. unfold round_half_even. cbv zeta.
  rewrite (Qfloor_comp q (inject_Z z) H), Qfloor_Z.
  assert (E : (q - inject_Z z ?= 1 # 2) = Lt).
  { apply Qlt_alt. rewrite H.
    unfold Qminus. rewrite Qplus_opp_r. reflexivity. }
  rewrite E. reflexivity.
Qed.

Lemma round_half_even_comp (q1 q2 : Q) :
  q1 == q2 -> round_half_even q1 = round_half_even q2.
Proof.
  intros H. unfold round_half_even. cbv zeta.
  rewrite (Qfloor_comp q1 q2 H).
  replace (q1 - inject_Z (Qfloor q2) ?= 1 # 2)
    with (q2 - inject_Z (Qfloor q2) ?= 1 # 2); [reflexivity|].
  apply Qcompare_comp; [rewrite H|]; reflexivity.
Qed.

Lemma round_nd_comp (q1 q2 : Q) (n : nat) : q1 == q2 -> round_nd q1 n = round_nd q2 n.
Proof.
  intros H. unfold round_nd.
  rewrite (round_half_even_comp (q1 * inject_Z (10 ^ Z.of_nat n))
                                (q2 * inject_Z (10 ^ Z.of_nat n))); [reflexivity|].
  rewrite H. reflexivity.
Qed.

Lemma round_half_even_ge_floor (q : Q) : (Qfloor q <= round_half_even q)%Z.
Proof.
  unfold round_half_even.
  destruct (q - inject_Z (Qfloor q) ?= 1 # 2); try lia.
  destruct (Z.even (Qfloor q)); lia.
Qed.

Lemma round_half_even_nonneg (q : Q) : 0 <= q -> (0 <= round_half_even q)%Z.
Proof.
  intros H. pose proof (round_half_even_ge_floor q).
  pose proof (Qfloor_resp_le 0 q H) as F.
  replace (Qfloor 0) with 0%Z in F by reflexivity. lia.
Qed.

Lemma round_nd_2_exact (q : Q) (z : Z) :
  q * 100 == inject_Z z -> round_nd q 2 == inject_Z z * (1 # 100).
Proof.
  intros H. unfold round_nd. rewrite Qred_correct.
  change (10 ^ Z.of_nat 2)%Z with 100%Z.
  rewrite (round_half_even_Z (q * inject_Z 100) z H). reflexivity.
Qed.

Lemma cents_lt (a b : Z) :
  inject_Z a * (1 # 100) < inject_Z b * (1 # 100) <-> (a < b)%Z.
Proof.
  rewrite Zlt_Qlt. split; intros H; lra.
Qed.

Lemma inject_Z_pos_iff (s : Z) : 0 < inject_Z s <-> (1 <= s)%Z.
Proof.
  change 0 with (inject_Z 0). rewrite <- Zlt_Qlt. lia.
Qed.

Lemma inject_Z_nonneg (s : Z) : (0 <= s)%Z -> 0 <= inject_Z s.
Proof. intros H. change 0 with (inject_Z 0). rewrite <- Zle_Qle. exact H. Qed.

Lemma round_half_even_pos (q : Q) : 1 # 2 < q -> (1 <= round_half_even q)%Z.
Proof.
  intros H. pose proof (round_half_even_ge_floor q) as Hge.
  pose proof (Qlt_floor q) as Hf.
  destruct (Z_le_gt_dec 1 (Qfloor q)) as [H1|H1]; [lia|].
  assert (F0 : Qfloor q = 0%Z).
  { assert (Hp : inject_Z 0 < inject_Z (Qfloor q + 1)).
    { change (inject_Z 0) with 0. lra. }
    rewrite <- Zlt_Qlt in Hp.
    pose proof (Qfloor_le q). lia. }
  unfold round_half_even. cbv zeta. rewrite F0.
  replace (q - inject_Z 0 ?= 1 # 2) with Gt; [reflexivity|].
  symmetry. apply Qgt_alt. change (inject_Z 0) with 0. lra.
Qed.

Lemma round_nd_2_pos (q : Q) : 1 # 200 < q -> 0 < round_nd q 2.
Proof.
  intros H. unfold round_nd. rewrite Qred_correct.
  change (10 ^ Z.of_nat 2)%Z with 100%Z.
  assert (H1 : 1 # 2 < q * inject_Z 100).
  { change (inject_Z 100) with (100 # 1). lra. }
  pose proof (proj2 (inject_Z_pos_iff _) (round_half_even_pos _ H1)) as Hp.
  change (inject_Z 100) with (100 # 1) in Hp |- *. unfold Qdiv.
  change (/ (100 # 1)) with (1 # 100). lra.
Qed.

(** ** Rounding is symmetric *)

Lemma Qfloor_unique (z : Z) (q : Q) :
  inject_Z z <= q -> q < inject_Z (z + 1) -> Qfloor q = z.
Proof.
  intros H1 H2. pose proof (Qfloor_le q) as F1. pose proof (Qlt_floor q) as F2.
  assert (A : inject_Z z < inject_Z (Qfloor q + 1)) by (eapply Qle_lt_trans; eassumption).
  assert (B : inject_Z (Qfloor q) < inject_Z (z + 1)) by (eapply Qle_lt_trans; eassumption).
  rewrite <- Zlt_Qlt in A, B. lia.
Qed.

(** What round() returns: the integer nearer than one half, or on a tie the
    even one of the two. *)
Lemma round_half_even_spec (q : Q) :
  let r := round_half_even q in
  (inject_Z r - (1 # 2) < q /\ q < inject_Z r + (1 # 2)) \/
  ((q == inject_Z r - (1 # 2) \/ q == inject_Z r + (1 # 2)) /\ Z.even r = true).
Proof.
  cbv zeta.
  pose proof (Qfloor_le q) as F1. pose proof (Qlt_floor q) as F2.
  rewrite inject_Z_plus in F2. change (inject_Z 1) with 1 in F2.
  unfold round_half_even. cbv zeta.
  destruct (Qcompare_spec (q - inject_Z (Qfloor q)) (1 # 2)) as [H|H|H].
  - right. destruct (Z.even (Qfloor q)) eqn:E.
    + split; [right; lra|exact E].
    + rewrite inject_Z_plus. change (inject_Z 1) with 1.
      split; [left; lra|]. rewrite Z.even_add, E. reflexivity.
  - left. split; lra.
  - left. rewrite inject_Z_plus. change (inject_Z 1) with 1. split; lra.
Qed.

Lemma round_half_even_unique (q : Q) (r : Z) :
  (inject_Z r - (1 # 2) < q /\ q < inject_Z r + (1 # 2)) \/
  ((q == inject_Z r - (1 # 2) \/ q == inject_Z r + (1 # 2)) /\ Z.even r = true) ->
  round_half_even q = r.
Proof.
  intros H. unfold round_half_even. cbv zeta.
  assert (Hr1 : inject_Z (r - 1 + 1) = inject_Z (r - 1) + 1).
  { rewrite inject_Z_plus. reflexivity. }
  assert (Hr2 : inject_Z (r - 1) = inject_Z r - 1).
  { unfold Z.sub. rewrite inject_Z_plus. reflexivity. }
  assert (Hr3 : inject_Z (r + 1) = inject_Z r + 1).
  { rewrite inject_Z_plus. reflexivity. }
  destruct (Qlt_le_dec q (inject_Z r)) as [Hlt|Hge].
  - assert (Hf : Qfloor q = (r - 1)%Z).
    { apply Qfloor_unique; rewrite ?Hr1, Hr2;
        destruct H as [[H1 H2]|[[H1|H1] _]]; lra. }
    rewrite Hf, Hr2.
    destruct H as [[H1 H2]|[[H1|H1] He]].
    + replace (q - (inject_Z r - 1) ?= 1 # 2) with Gt by (symmetry; apply Qgt_alt; lra). lia.
    + replace (q - (inject_Z r - 1) ?= 1 # 2) with Eq by (symmetry; apply Qeq_alt; lra).
      replace (Z.even (r - 1)) with false; [lia|].
      rewrite <- (Z.sub_add 1 r) in He. rewrite Z.even_add in He.
      destruct (Z.even (r - 1)); [discriminate|reflexivity].
    + exfalso. lra.
  - assert (Hf : Qfloor q = r).
    { apply Qfloor_unique; [exact Hge|]. rewrite Hr3.
      destruct H as [[H1 H2]|[[H1|H1] _]]; lra. }
    rewrite Hf.
    destruct H as [[H1 H2]|[[H1|H1] He]].
    + assert (X : (q - inject_Z r ?= 1 # 2) = Lt) by (change (q - inject_Z r < 1 # 2); lra).
      rewrite X. reflexivity.
    + exfalso. lra.
    + replace (q - inject_Z r ?= 1 # 2) with Eq by (symmetry; apply Qeq_alt; lra).
      rewrite He. reflexivity.
Qed.

Lemma round_half_even_opp (q : Q) : round_half_even (- q) = (- round_half_even q)%Z.
Proof.
  apply round_half_even_unique. rewrite inject_Z_opp.
  destruct (round_half_even_spec q) as [[H1 H2]|[[H1|H1] He]].
  - left. split; lra.
  - right. split; [right; lra|]. rewrite Z.even_opp. exact He.
  - right. split; [left; lra|]. rewrite Z.even_opp. exact He.
Qed.

Lemma round_nd_2_nonpos (q : Q) : q <= 0 -> round_nd q 2 <= 0.
Proof.
  intros H. unfold round_nd. rewrite Qred_correct.
  change (10 ^ Z.of_nat 2)%Z with 100%Z.
  assert (H1 : (0 <= round_half_even (- (q * inject_Z 100)))%Z).
  { apply round_half_even_nonneg. change (inject_Z 100) with (100 # 1). lra. }
  rewrite round_half_even_opp in H1.
  assert (H2 : inject_Z (round_half_even (q * inject_Z 100)) <= inject_Z 0).
  { rewrite <- Zle_Qle. lia. }
  change (inject_Z 0) with 0 in H2. unfold Qdiv.
  change (/ inject_Z 100) with (1 # 100). lra.
Qed.

Lemma round_nd_1_opp (q : Q) : round_nd (- q) 1 == - round_nd q 1.
Proof.
  unfold round_nd. rewrite !Qred_correct. change (10 ^ Z.of_nat 1)%Z with 10%Z.
  rewrite (round_half_even_comp (- q * inject_Z 10) (- (q * inject_Z 10))) by ring.
  rewrite round_half_even_opp, inject_Z_opp. unfold Qdiv. ring.
Qed.

(** ** Trade planner *)

Module TradePlanFacts.
Import TradePlan.

Ltac cents_exact He :=
  apply round_nd_2_exact; rewrite He; unfold PIP_SIZE;
  unfold Z.sub; rewrite ?inject_Z_plus, ?inject_Z_opp, ?inject_Z_mult; ring.

(** The shape of every returned plan: the entry is a whole number of
    cents, stop_pips is a natural number, tp_pips = 2 * stop_pips, and the
    stop and target are offset from the entry by those pip counts (plus the
    spread on the stop side). *)
Lemma create_trade_plan_shape (m : RiskMode) (df : list Bar) (d : Verdict)
    (bal : Q) (p : Plan) :
  create_trade_plan m df d bal = PlanSome p ->
  direction p = d /\ (0 <= stop_pips p)%Z /\ tp_pips p = (2 * stop_pips p)%Z /\
  exists e : Z, entry p == inject_Z e * (1 # 100) /\
    (d = BUY ->
       sl p == inject_Z (e - stop_pips p) * (1 # 100) - ASSUMED_SPREAD /\
       tp p == inject_Z (e + tp_pips p) * (1 # 100)) /\
    (d <> BUY ->
       sl p == inject_Z (e + stop_pips p) * (1 # 100) + ASSUMED_SPREAD /\
       tp p == inject_Z (e - tp_pips p) * (1 # 100)).
Proof.
  unfold create_trade_plan.
  destruct (last df) as [lb|]; [|discriminate].
  destruct (calculate_atr df ATR_PERIOD) as [| |a]; try discriminate.
  destruct (Qle_bool a 0) eqn:Ha; [discriminate|].
  assert (Hpos : 0 < a).
  { apply Qnot_le_lt. intros Hle. apply Qle_bool_iff in Hle. congruence. }
  set (e := round_half_even (Close lb * inject_Z (10 ^ Z.of_nat 2))).
  set (s := round_half_even (ATR_MULTIPLIER * a / PIP_SIZE)).
  assert (Hs : (0 <= s)%Z).
  { apply round_half_even_nonneg. unfold ATR_MULTIPLIER, PIP_SIZE, Qdiv.
    change (/ (1 # 100)) with (100 # 1). lra. }
  assert (Ht : round_half_even (RR_TARGET * inject_Z s) = (2 * s)%Z).
  { apply round_half_even_Z. rewrite inject_Z_mult. reflexivity. }
  assert (He : round_nd (Close lb) 2 == inject_Z e * (1 # 100)).
  { unfold round_nd. rewrite Qred_correct. reflexivity. }
  rewrite Ht.
  destruct d; intros H; injection H as <-; cbn [direction entry sl tp stop_pips tp_pips];
    (split; [reflexivity|]); (split; [exact Hs|]); (split; [reflexivity|]);
    exists e; (split; [exact He|]); split; intros Hd; try congruence;
    (split; [unfold Qminus; apply Qplus_comp; [cents_exact He|reflexivity] | cents_exact He]).
Qed.

(** A positive ATR always yields a plan (calculate_atr returns a number
    only on non-empty bars), and its stop_pips is round(1.5 * atr / 0.01). *)
Lemma create_trade_plan_atr (m : RiskMode) (df : list Bar) (d : Verdict)
    (bal a : Q) :
  calculate_atr df ATR_PERIOD = AtrNum a -> 0 < a ->
  exists p, create_trade_plan m df d bal = PlanSome p /\
    stop_pips p = round_half_even (ATR_MULTIPLIER * a / PIP_SIZE) /\
    (stop_pips p = 0%Z -> tp p == entry p).
Proof.
  intros Ha Hpos. unfold create_trade_plan.
  destruct (last df) as [lb|] eqn:El.
  2:{ apply last_None in El. subst df. discriminate. }
  rewrite Ha.
  assert (Hb : Qle_bool a 0 = false).
  { destruct (Qle_bool a 0) eqn:E; [|reflexivity].
    apply Qle_bool_iff in E. lra. }
  rewrite Hb. cbv zeta.
  set (s := round_half_even (ATR_MULTIPLIER * a / PIP_SIZE)).
  assert (Ht : round_half_even (RR_TARGET * inject_Z s) = (2 * s)%Z).
  { apply round_half_even_Z. rewrite inject_Z_mult. reflexivity. }
  rewrite Ht.
  assert (He : round_nd (round_nd (Close lb) 2) 2 == round_nd (Close lb) 2).
  { set (e := round_half_even (Close lb * inject_Z (10 ^ Z.of_nat 2))).
    assert (He : round_nd (Close lb) 2 == inject_Z e * (1 # 100)).
    { unfold round_nd. rewrite Qred_correct. reflexivity. }
    rewrite (round_nd_comp _ _ 2 He), He. apply round_nd_2_exact. ring. }
  destruct d; eexists; (split; [reflexivity|]); (split; [reflexivity|]);
    cbn [tp entry stop_pips]; intros Hs; rewrite Hs, Z.mul_0_r;
    erewrite round_nd_comp; try exact He;
    change (inject_Z 0) with 0; ring.
Qed.

(** C1 (amended).  Every returned plan has stop_pips >= 0, the stop
    strictly on the losing side of the entry and the target on the winning
    side or at the entry; the target is strictly beyond the entry exactly
    when stop_pips >= 1.  Any direction other than "BUY" takes the SELL
    branch.  A positive ATR a always yields a plan whose stop_pips is 0
    exactly when a <= 1/300 (so for every positive ATR below 1/300), and
    then the target equals the entry. *)
Theorem create_trade_plan_price_order (m : RiskMode) (df : list Bar)
    (d : Verdict) (bal : Q) :
  (forall p, create_trade_plan m df d bal = PlanSome p ->
    (0 <= stop_pips p)%Z /\
    (direction p = BUY ->
       sl p < entry p /\ entry p <= tp p /\ (entry p < tp p <-> (1 <= stop_pips p)%Z)) /\
    (direction p <> BUY ->
       tp p <= entry p /\ entry p < sl p /\ (tp p < entry p <-> (1 <= stop_pips p)%Z))) /\
  (forall a, calculate_atr df ATR_PERIOD = AtrNum a -> 0 < a ->
    exists p, create_trade_plan m df d bal = PlanSome p /\
      (stop_pips p = 0%Z <-> a <= 1 # 300) /\
      (a < 1 # 300 -> stop_pips p = 0%Z) /\
      (stop_pips p = 0%Z -> tp p == entry p)).
Proof.
  split.
  { intros p H.
    destruct (create_trade_plan_shape m df d bal p H)
      as (Hd & Hs & Ht & e & He & HB & HS).
    split; [exact Hs|].
    rewrite Ht in HB, HS. rewrite Hd.
    pose proof (inject_Z_nonneg _ Hs) as Hq.
    rewrite <- (inject_Z_pos_iff (stop_pips p)).
    split; intros Hdir.
    - destruct (HB Hdir) as [Hsl Htp]. rewrite He, Hsl, Htp.
      unfold Z.sub, ASSUMED_SPREAD.
      rewrite ?inject_Z_plus, ?inject_Z_opp, ?inject_Z_mult.
      change (inject_Z 2) with (2 # 1).
      split; [lra|]. split; [lra|]. split; intros; lra.
    - destruct (HS Hdir) as [Hsl Htp]. rewrite He, Hsl, Htp.
      unfold Z.sub, ASSUMED_SPREAD.
      rewrite ?inject_Z_plus, ?inject_Z_opp, ?inject_Z_mult.
      change (inject_Z 2) with (2 # 1).
      split; [lra|]. split; [lra|]. split; intros; lra. }
  intros a Ha Hpos.
  destruct (create_trade_plan_atr m df d bal a Ha Hpos) as (p & Hp & Hs & Htp).
  exists p. split; [exact Hp|].
  assert (Hx : ATR_MULTIPLIER * a / PIP_SIZE == 150 * a).
  { unfold ATR_MULTIPLIER, PIP_SIZE, Qdiv. change (/ (1 # 100)) with (100 # 1). ring. }
  rewrite (round_half_even_comp _ _ Hx) in Hs.
  assert (Hle : a <= 1 # 300 -> stop_pips p = 0%Z).
  { intros Hle. rewrite Hs. apply round_half_even_unique.
    change (inject_Z 0) with 0.
    destruct (Qlt_le_dec (150 * a) (1 # 2)) as [Hl|Hg].
    - left. split; lra.
    - right. split; [right; lra|reflexivity]. }
  split; [split; [|exact Hle]|split; [intros; apply Hle; lra|exact Htp]].
  intros H0. destruct (Qlt_le_dec (1 # 300) a) as [Hg|Hl]; [|exact Hl].
  exfalso. assert (H1 : (1 <= round_half_even (150 * a))%Z)
    by (apply round_half_even_pos; lra).
  rewrite <- Hs in H1. lia.
Qed.

(** C1 (counterexample).  On these bars the ATR is 0.001 > 0, so a plan is
    returned, but stop_pips = round(0.15) = 0 and the BUY target equals the
    entry: entry < target fails. *)
Lemma create_trade_plan_target_at_entry :
  match create_trade_plan RISK_MODE tiny_range_bars BUY 20 with
  | PlanSome p => direction p = BUY /\ stop_pips p = 0%Z /\ tp p == entry p /\ ~ (entry p < tp p)
  | _ => False
  end.
Proof.
  vm_compute. split; [reflexivity|]. split; [reflexivity|].
  split; [reflexivity|]. discriminate.
Qed.

Lemma create_trade_plan_price_order_witness :
  (exists p, create_trade_plan RISK_MODE dollar_range_bars BUY 20 = PlanSome p /\
    (0 <= stop_pips p)%Z /\
    (direction p = BUY ->
       sl p < entry p /\ entry p <= tp p /\ (entry p < tp p <-> (1 <= stop_pips p)%Z))) /\
  (exists a, calculate_atr tiny_range_bars ATR_PERIOD = AtrNum a /\ a == 1 # 1000 /\
   exists p, create_trade_plan RISK_MODE tiny_range_bars BUY 20 = PlanSome p /\
     (stop_pips p = 0%Z <-> a <= 1 # 300) /\
     (a < 1 # 300 -> stop_pips p = 0%Z) /\
     (stop_pips p = 0%Z -> tp p == entry p)).
Proof.
  split.
  - eexists. split; [vm_compute; reflexivity|].
    destruct (proj1 (create_trade_plan_price_order RISK_MODE dollar_range_bars BUY 20) _
                (eq_refl _)) as (Hs & HB & _).
    split; [exact Hs|exact HB].
  - eexists. split; [vm_compute; reflexivity|].
    split; [vm_compute; reflexivity|].
    apply (proj2 (create_trade_plan_price_order RISK_MODE tiny_range_bars BUY 20)).
    + vm_compute. reflexivity.
    + vm_compute. reflexivity.
Defined.

Example flat_bars_atr :
  calculate_atr (repeat (mkBar 0 2650 (2650001 # 1000) 2650 2650 0) 14) ATR_PERIOD
  = AtrNum (Qsum (repeat (1 # 1000) 14) / 14).
Proof. vm_compute. reflexivity. Qed.

End TradePlanFacts.

(** ** Outcome verifier *)

Module VerifyFacts.
Import Verify.

Lemma scan_candles_skip (dir : Verdict) (sl_price tp_price : Q) (i : Z)
    (pre rest : list Bar) :
  Forall (no_trigger dir sl_price tp_price) pre ->
  scan_candles dir sl_price tp_price i (pre ++ rest) =
  scan_candles dir sl_price tp_price (i + Z.of_nat (length pre)) rest.
Proof.
  revert i. induction pre as [|c pre IH]; intros i Hpre.
  - simpl. now rewrite Z.add_0_r.
  - inversion Hpre as [|? ? [Hs Ht] Hrest]; subst.
    replace (i + Z.of_nat (length (c :: pre)))%Z
      with ((i + 1) + Z.of_nat (length pre))%Z by (simpl length; lia).
    rewrite <- (IH (i + 1)%Z Hrest).
    unfold stop_hit, target_hit in *.
    destruct dir; simpl; rewrite Hs, Ht; reflexivity.
Qed.

Lemma scan_candles_stop (dir : Verdict) (sl_price tp_price : Q) (i : Z)
    (c : Bar) (rest : list Bar) :
  stop_hit dir sl_price c = true ->
  scan_candles dir sl_price tp_price i (c :: rest) =
  Some (mkResult LOSS (Some sl_price) (i + 1) (-1) None).
Proof.
  unfold stop_hit. intros Hs.
  destruct dir; simpl; rewrite Hs;
    match goal with |- context [if ?b then _ else _] => destruct b end;
    reflexivity.
Qed.

Lemma scan_candles_some (dir : Verdict) (sl_price tp_price : Q) (i : Z)
    (rows : list Bar) (r : VerifyResult) :
  scan_candles dir sl_price tp_price i rows = Some r ->
  (result r = WIN /\ rr r = 2) \/ (result r = LOSS /\ rr r = -1).
Proof.
  revert i. induction rows as [|c rows IH]; intros i H; simpl in H.
  - discriminate.
  - destruct dir;
      repeat match type of H with
      | context [if ?b then _ else _] => destruct b
      end;
      try (injection H as <-; simpl; auto); eauto.
Qed.

Lemma verify_trade_realtime_scan (now : Z) (et : DateTime) (dir : Verdict)
    (entry_price sl_price tp_price : Q) (df : list Bar) :
  inject_Z (now - to_utc et) / 60 <= inject_Z VERIFICATION_WINDOW_BARS ->
  List.filter (fun c => Z.ltb (to_utc et) (bar_time c)) df <> [] ->
  verify_trade_realtime now et dir entry_price sl_price tp_price (FetchDf df) =
  match scan_candles dir sl_price tp_price 0
          (List.filter (fun c => Z.ltb (to_utc et) (bar_time c)) df) with
  | Some r => r
  | None => no_hit (Z.of_nat (length (List.filter (fun c => Z.ltb (to_utc et) (bar_time c)) df)))
  end.
Proof.
  intros Hw Hne. apply Qle_bool_iff in Hw.
  unfold verify_trade_realtime. cbv zeta. rewrite Hw. simpl negb. cbv iota.
  destruct df as [|c0 df]; [contradiction (Hne eq_refl)|].
  destruct (List.filter (fun c => Z.ltb (to_utc et) (bar_time c)) (c0 :: df)) eqn:E;
    [contradiction (Hne eq_refl)|].
  reflexivity.
Qed.

(** C2.  Same-bar tie-break: when the first bar after the entry that meets
    either level condition meets both the stop and the target condition,
    the verifier (within the window, with data) returns LOSS at the stop
    price, for both directions. *)
Theorem verify_both_hit_is_loss (now : Z) (et : DateTime) (dir : Verdict)
    (entry_price sl_price tp_price : Q) (df pre : list Bar) (c : Bar)
    (rest : list Bar) :
  inject_Z (now - to_utc et) / 60 <= inject_Z VERIFICATION_WINDOW_BARS ->
  List.filter (fun b => Z.ltb (to_utc et) (bar_time b)) df = pre ++ c :: rest ->
  Forall (no_trigger dir sl_price tp_price) pre ->
  stop_hit dir sl_price c = true ->
  target_hit dir tp_price c = true ->
  verify_trade_realtime now et dir entry_price sl_price tp_price (FetchDf df) =
  mkResult LOSS (Some sl_price) (Z.of_nat (length pre) + 1) (-1) None.
Proof.
  intros Hw Hf Hpre Hs _.
  rewrite (verify_trade_realtime_scan now et dir entry_price sl_price tp_price df Hw)
    by (rewrite Hf; destruct pre; discriminate).
  rewrite Hf, (scan_candles_skip dir sl_price tp_price 0 pre (c :: rest) Hpre).
  rewrite (scan_candles_stop dir sl_price tp_price _ c rest Hs).
  reflexivity.
Qed.

Lemma verify_both_hit_is_loss_witness :
  verify_trade_realtime 600 (mkDateTime 0 None) BUY 2650 2645 2660
    (FetchDf scenario_bars) = mkResult LOSS (Some 2645) 3 (-1) None.
Proof.
  apply (verify_both_hit_is_loss 600 (mkDateTime 0 None) BUY 2650 2645 2660
           scenario_bars (firstn 2 scenario_bars) (nth 2 scenario_bars (mkBar 0 0 0 0 0 0))
           (skipn 3 scenario_bars)).
  - apply Qle_bool_iff. reflexivity.
  - reflexivity.
  - repeat constructor.
  - reflexivity.
  - reflexivity.
Defined.

(** C4.  If bar k (1-based) is the first to meet the stop condition and no
    earlier bar meets the stop or the target condition, the verifier
    returns LOSS with bars = k; the result does not depend on the bars
    after bar k. *)
Theorem verify_first_stop_is_loss_at_k (now : Z) (et : DateTime) (dir : Verdict)
    (entry_price sl_price tp_price : Q) (df pre : list Bar) (c : Bar)
    (rest : list Bar) (k : Z) :
  inject_Z (now - to_utc et) / 60 <= inject_Z VERIFICATION_WINDOW_BARS ->
  List.filter (fun b => Z.ltb (to_utc et) (bar_time b)) df = pre ++ c :: rest ->
  k = (Z.of_nat (length pre) + 1)%Z ->
  Forall (no_trigger dir sl_price tp_price) pre ->
  stop_hit dir sl_price c = true ->
  verify_trade_realtime now et dir entry_price sl_price tp_price (FetchDf df) =
  mkResult LOSS (Some sl_price) k (-1) None.
Proof.
  intros Hw Hf -> Hpre Hs.
  rewrite (verify_trade_realtime_scan now et dir entry_price sl_price tp_price df Hw)
    by (rewrite Hf; destruct pre; discriminate).
  rewrite Hf, (scan_candles_skip dir sl_price tp_price 0 pre (c :: rest) Hpre).
  rewrite (scan_candles_stop dir sl_price tp_price _ c rest Hs).
  reflexivity.
Qed.

Lemma verify_first_stop_is_loss_at_k_witness :
  verify_trade_realtime 600 (mkDateTime 0 None) SELL 2650 2654 2640
    (FetchDf scenario_bars) = mkResult LOSS (Some 2654) 2 (-1) None.
Proof.
  apply (verify_first_stop_is_loss_at_k 600 (mkDateTime 0 None) SELL 2650 2654 2640
           scenario_bars (firstn 1 scenario_bars) (nth 1 scenario_bars (mkBar 0 0 0 0 0 0))
           (skipn 2 scenario_bars) 2).
  - apply Qle_bool_iff. reflexivity.
  - reflexivity.
  - reflexivity.
  - repeat constructor.
  - reflexivity.
Defined.

(** C7.  Once more than VERIFICATION_WINDOW_BARS minutes have passed since
    the (UTC-normalized) entry time, the verifier returns EXPIRED with rr 0
    whatever the data source does, the direction and the levels. *)
Theorem verify_expired_before_data (now : Z) (et : DateTime) (dir : Verdict)
    (entry_price sl_price tp_price : Q) (fetch : Fetch) :
  inject_Z VERIFICATION_WINDOW_BARS < inject_Z (now - to_utc et) / 60 ->
  verify_trade_realtime now et dir entry_price sl_price tp_price fetch =
  mkResult EXPIRED None VERIFICATION_WINDOW_BARS 0 None.
Proof.
  intros Hlate. unfold verify_trade_realtime. cbv zeta.
  destruct (Qle_bool (inject_Z (now - to_utc et) / 60) (inject_Z VERIFICATION_WINDOW_BARS))
    eqn:E.
  - apply Qle_bool_iff in E. exfalso. exact (Qlt_not_le _ _ Hlate E).
  - reflexivity.
Qed.

Lemma verify_expired_before_data_witness :
  verify_trade_realtime 7261 (mkDateTime 3600 (Some 3600%Z)) BUY 2650 2645 2660
    (FetchRaises "timeout") = mkResult EXPIRED None 120 0 None.
Proof.
  apply verify_expired_before_data. vm_compute. reflexivity.
Defined.

(** C3.  The realized reward multiple reported by the verifier: WIN
    carries RR_TARGET, LOSS carries -1, and EXPIRED, PENDING and ERROR
    carry 0. *)
Theorem verify_rr_by_result (now : Z) (et : DateTime) (dir : Verdict)
    (entry_price sl_price tp_price : Q) (fetch : Fetch) :
  let r := verify_trade_realtime now et dir entry_price sl_price tp_price fetch in
  (result r = WIN -> rr r = RR_TARGET) /\
  (result r = LOSS -> rr r = -1) /\
  (result r = EXPIRED \/ result r = PENDING \/ result r = ERROR -> rr r = 0).
Proof.
  cbv zeta.
  assert (Hscan : forall rows, let r := match scan_candles dir sl_price tp_price 0 rows with
                                      | Some r => r
                                      | None => no_hit (Z.of_nat (length rows)) end in
            (result r = WIN -> rr r = RR_TARGET) /\ (result r = LOSS -> rr r = -1) /\
            (result r = EXPIRED \/ result r = PENDING \/ result r = ERROR -> rr r = 0)).
  { intros rows. cbv zeta.
    destruct (scan_candles dir sl_price tp_price 0 rows) as [r|] eqn:E.
    - destruct (scan_candles_some _ _ _ _ _ _ E) as [[-> ->]|[-> ->]];
        repeat split; intros H; try reflexivity;
        repeat destruct H as [H|H]; discriminate.
    - simpl. repeat split; intros H; try discriminate; reflexivity. }
  unfold verify_trade_realtime. cbv zeta.
  destruct (negb _); [simpl; repeat split; intros H; try discriminate; reflexivity|].
  destruct fetch as [msg| |[|c0 df]];
    try (simpl; repeat split; intros H; try discriminate; reflexivity).
  destruct (List.filter _ (c0 :: df)) as [|c1 l];
    [simpl; repeat split; intros H; try discriminate; reflexivity|].
  apply Hscan.
Qed.

End VerifyFacts.

(** ** Level ledger *)

Module LevelsFacts.
Import Verify Levels.

(** The spec's scenario: STRICT, level 1, balance 20.0, WIN gives level 2,
    balance 24.0, target 28.8. *)
Example update_level_strict_scenario :
  let s := fst (update_level LEVEL_STRICT [] 0 WIN) in
  level s = 2%Z /\ balance s == 24 /\ target s == 288 # 10.
Proof. vm_compute. split; [reflexivity|]. split; reflexivity. Qed.

(** C8.  In LEVEL_STRICT mode the pnl argument is ignored: two calls that
    differ only in pnl return the same state and append the same row.  WIN
    gives level+1 and balance*1.2, anything else max(1, level-1) and
    balance/1.2; the target is the new balance times 1.2; balance and
    target are rounded to cents. *)
Theorem update_level_strict_ignores_pnl (table : list LevelRow) (pnl1 pnl2 : Q)
    (res : Outcome) :
  update_level LEVEL_STRICT table pnl1 res = update_level LEVEL_STRICT table pnl2 res /\
  (let cur := get_current_level table in
   let nb := match res with
             | WIN => balance cur * (6 # 5)
             | _ => balance cur / (6 # 5)
             end in
   fst (update_level LEVEL_STRICT table pnl1 res) =
   mkLevel (match res with
            | WIN => (level cur + 1)%Z
            | _ => Z.max 1 (level cur - 1)
            end)
           (round_nd nb 2) (round_nd (nb * (6 # 5)) 2)).
Proof.
  split.
  - reflexivity.
  - cbv zeta. unfold update_level. destruct res; reflexivity.
Qed.

(** C5 (counterexample).  MILESTONE ("SAFER") mode from the initial state
    (level 1, balance 20, target 24) with pnl -30 and LOSS: the balance
    becomes -10 and the target -12. *)
Lemma update_level_milestone_nonpositive :
  let s := fst (update_level SAFER [] (-30) LOSS) in
  level s = 1%Z /\ balance s == -10 /\ target s == -12 /\ ~ (0 < balance s).
Proof.
  vm_compute. split; [reflexivity|]. split; [reflexivity|].
  split; [reflexivity|]. discriminate.
Qed.

(** C5 (amended).  From a state with level >= 1 every update keeps
    level >= 1 in both modes.  In LEVEL_STRICT mode, from a balance of at
    least 0.01, the new balance and target are > 0.  In MILESTONE mode the
    new balance is round(balance + pnl, 2), with no lower bound, and the
    new target is either round((balance + pnl) * 1.2, 2) or the old target
    (rounded) with the level unchanged; a loss at least as large as a
    positive balance makes both the new balance and the new target <= 0. *)
Theorem update_level_bounds (mode : RiskMode) (table : list LevelRow) (pnl : Q)
    (res : Outcome) :
  (1 <= level (get_current_level table))%Z ->
  let cur := get_current_level table in
  let s := fst (update_level mode table pnl res) in
  (1 <= level s)%Z /\
  (mode = LEVEL_STRICT -> 1 # 100 <= balance cur -> 0 < balance s /\ 0 < target s) /\
  (mode = SAFER ->
     balance s = round_nd (balance cur + pnl) 2 /\
     (target s = round_nd ((balance cur + pnl) * (6 # 5)) 2 \/
      (level s = level cur /\ target s = round_nd (target cur) 2)) /\
     (0 < balance cur -> balance cur + pnl <= 0 -> balance s <= 0 /\ target s <= 0)).
Proof.
  intros Hl. cbv zeta. unfold update_level.
  destruct (get_current_level table) as [l b t]. simpl in Hl.
  destruct mode.
  - split; [|split; [|discriminate]].
    + destruct res; simpl; lia.
    + intros _ Hb. unfold Qdiv. change (/ (6 # 5)) with (5 # 6).
      simpl in Hb. destruct res; simpl; split; apply round_nd_2_pos; lra.
  - cbv zeta. simpl.
    destruct (Qle_bool t (b + pnl)) eqn:E1;
      [|destruct (Qle_bool (b + pnl) (b / (6 # 5))) eqn:E2];
      simpl; (split; [lia|]); (split; [discriminate|]); intros _;
      (split; [reflexivity|]).
    + split; [left; reflexivity|]. intros _ Hn.
      split; apply round_nd_2_nonpos; [exact Hn|lra].
    + split; [left; reflexivity|]. intros _ Hn.
      split; apply round_nd_2_nonpos; [exact Hn|lra].
    + split; [right; split; reflexivity|]. intros Hb Hn. exfalso.
      assert (Hd : b + pnl <= b / (6 # 5)).
      { unfold Qdiv. change (/ (6 # 5)) with (5 # 6). lra. }
      apply Qle_bool_iff in Hd. congruence.
Qed.

Lemma update_level_bounds_witness :
  ((1 <= level (get_current_level []))%Z /\
   (1 <= level (fst (update_level LEVEL_STRICT [] 0 LOSS)))%Z /\
   (LEVEL_STRICT = LEVEL_STRICT -> 1 # 100 <= balance (get_current_level []) ->
      0 < balance (fst (update_level LEVEL_STRICT [] 0 LOSS)) /\
      0 < target (fst (update_level LEVEL_STRICT [] 0 LOSS)))) /\
  ((1 <= level (get_current_level []))%Z /\
   0 < balance (get_current_level []) /\ balance (get_current_level []) + (-30) <= 0 /\
   balance (fst (update_level SAFER [] (-30) LOSS)) =
     round_nd (balance (get_current_level []) + (-30)) 2 /\
   balance (fst (update_level SAFER [] (-30) LOSS)) <= 0 /\
   target (fst (update_level SAFER [] (-30) LOSS)) <= 0).
Proof.
  split.
  - assert (Hl : (1 <= level (get_current_level []))%Z) by (vm_compute; discriminate).
    split; [exact Hl|].
    destruct (update_level_bounds LEVEL_STRICT [] 0 LOSS Hl) as (H1 & H2 & _).
    split; [exact H1|exact H2].
  - assert (Hl : (1 <= level (get_current_level []))%Z) by (vm_compute; discriminate).
    assert (Hb : 0 < balance (get_current_level [])) by (vm_compute; reflexivity).
    assert (Hn : balance (get_current_level []) + (-30) <= 0) by (vm_compute; discriminate).
    destruct (update_level_bounds SAFER [] (-30) LOSS Hl) as (_ & _ & H3).
    destruct (H3 eq_refl) as (H4 & _ & H5).
    destruct (H5 Hb Hn) as [H6 H7].
    repeat split; assumption.
Defined.

End LevelsFacts.

(** ** Council ledger *)

Module CouncilFacts.
Import Verify Council.

Lemma grade_module_lookup_ne (d : Verdict) (res : Outcome) (rr : Q)
    (t : gmap string CouncilRow) (k m : string) (v : Verdict) :
  k <> m -> grade_module d res rr t (k, v) !! m = t !! m.
Proof.
  intros Hne. unfold grade_module.
  destruct v; try (destruct (negb _); [reflexivity|]; destruct res);
    try reflexivity; apply lookup_alter_ne; exact Hne.
Qed.

Lemma grade_module_lookup_eq (d : Verdict) (res : Outcome) (rr : Q)
    (t : gmap string CouncilRow) (m : string) (v : Verdict) :
  grade_module d res rr t (m, v) !! m = grade_effect d res rr v <$> t !! m.
Proof.
  unfold grade_module, grade_effect.
  destruct v; try (destruct (negb _); [destruct (t !! m); reflexivity|]; destruct res);
    try (destruct (t !! m); reflexivity); apply lookup_alter_eq.
Qed.

Lemma fold_grade_notin (d : Verdict) (res : Outcome) (rr : Q)
    (vs : list (string * Verdict)) (t : gmap string CouncilRow) (m : string) :
  ~ In m (map fst vs) ->
  fold_left (grade_module d res rr) vs t !! m = t !! m.
Proof.
  revert t. induction vs as [|[k v] vs IH]; intros t Hm; simpl in *; [reflexivity|].
  rewrite IH by tauto. apply grade_module_lookup_ne. intros ->. tauto.
Qed.

Lemma fold_grade_in (d : Verdict) (res : Outcome) (rr : Q)
    (vs : list (string * Verdict)) (t : gmap string CouncilRow) (m : string)
    (v : Verdict) :
  NoDup (map fst vs) -> In (m, v) vs ->
  fold_left (grade_module d res rr) vs t !! m = grade_effect d res rr v <$> t !! m.
Proof.
  revert t. induction vs as [|[k v'] vs IH]; intros t Hnd Hin; [destruct Hin|].
  simpl in Hnd. inversion Hnd as [|? ? Hk Hnd']; subst. simpl.
  rewrite list_elem_of_In in Hk.
  destruct Hin as [Heq|Hin].
  - injection Heq as -> ->.
    rewrite fold_grade_notin by exact Hk. apply grade_module_lookup_eq.
  - rewrite (IH _ Hnd' Hin). f_equal. apply grade_module_lookup_ne.
    intros ->. apply Hk. apply (in_map fst) in Hin. exact Hin.
Qed.

Lemma grade_council_lookup (t : gmap string CouncilRow)
    (vs : list (string * Verdict)) (d : Verdict) (res : Outcome) (rr : Q)
    (m : string) (v : Verdict) :
  NoDup (map fst vs) -> In (m, v) vs ->
  grade_council t vs d res rr !! m =
  (fun r => recompute_row (grade_effect d res rr v r)) <$> t !! m.
Proof.
  intros Hnd Hin. unfold grade_council. rewrite lookup_fmap.
  rewrite (fold_grade_in d res rr vs t m v Hnd Hin).
  destruct (t !! m); reflexivity.
Qed.

(** Every row is consistent after grade_council: the derived columns are
    recomputed from the counters for every member. *)
Lemma grade_council_consistent (t : gmap string CouncilRow)
    (vs : list (string * Verdict)) (d : Verdict) (res : Outcome) (rr : Q) :
  map_Forall (fun _ r => consistent r) (grade_council t vs d res rr).
Proof.
  intros k r Hk. unfold grade_council in Hk. rewrite lookup_fmap in Hk.
  destruct (fold_left _ vs t !! k) as [r0|]; simpl in Hk; [|discriminate].
  injection Hk as <-. split; reflexivity.
Qed.

Lemma init_council_consistent (t : gmap string CouncilRow) :
  map_Forall (fun _ r => consistent r) t ->
  map_Forall (fun _ r => consistent r) (init_council t).
Proof.
  unfold init_council. generalize members as ms.
  intros ms. revert t. induction ms as [|mb ms IH]; intros t Ht; simpl; [exact Ht|].
  apply IH. destruct (t !! mb); [exact Ht|].
  apply map_Forall_insert_2; [split; reflexivity|exact Ht].
Qed.

Example one_win_two_losses_accuracy :
  option_map accuracy (grade_all (init_council empty) one_win_two_losses !! "trend")
  = Some (333 # 10).
Proof. vm_compute. reflexivity. Qed.

(** C6 (counterexample).  After one WIN-aligned and two LOSS-aligned
    gradings of "trend" from the initial table, the stored accuracy is
    round(33.33..., 1) = 33.3, not 100*1/3. *)
Lemma grade_all_accuracy_rounded :
  match grade_all (init_council empty) one_win_two_losses !! "trend" with
  | Some r => correct r = 1%Z /\ incorrect r = 2%Z /\ accuracy r == 333 # 10 /\
              ~ (accuracy r == 100 * 1 / (1 + 2))
  | None => False
  end.
Proof.
  vm_compute. split; [reflexivity|]. split; [reflexivity|].
  split; [reflexivity|]. discriminate.
Qed.

Lemma grade_all_counts (m : string)
    (gs : list (list (string * Verdict) * Verdict * Outcome * Q))
    (t : gmap string CouncilRow) (r0 : CouncilRow) :
  t !! m = Some r0 ->
  Forall (fun g => let '(vs, d, res, rr) := g in
            NoDup (map fst vs) /\ In (m, d) vs /\ d <> NEUTRAL /\ (res = WIN \/ res = LOSS)) gs ->
  exists r, grade_all t gs !! m = Some r /\
    correct r = (correct r0 + count_result WIN gs)%Z /\
    incorrect r = (incorrect r0 + count_result LOSS gs)%Z /\
    ((gs = [] /\ accuracy r = accuracy r0) \/
     accuracy r = compute_accuracy (correct r) (incorrect r)).
Proof.
  revert t r0. induction gs as [|[[[vs d] res] rr] gs IH]; intros t r0 Ht Hall.
  - exists r0. split; [exact Ht|]. simpl. split; [lia|]. split; [lia|]. left; auto.
  - inversion Hall as [|? ? Hg Hall']; subst.
    destruct Hg as (Hnd & Hin & Hd & Hres).
    set (r1 := recompute_row (grade_effect d res rr d r0)).
    assert (H1 : grade_council t vs d res rr !! m = Some r1).
    { rewrite (grade_council_lookup t vs d res rr m d Hnd Hin), Ht. reflexivity. }
    destruct (IH _ r1 H1 Hall') as (r & Hr & Hc & Hi & Ha).
    exists r. split; [exact Hr|].
    assert (Hv : verdict_eqb d d = true) by (destruct d; reflexivity).
    unfold r1, grade_effect in Hc, Hi, Ha.
    destruct d; [| |contradiction]; rewrite Hv in Hc, Hi, Ha; simpl negb in Hc, Hi, Ha; cbv iota in Hc, Hi, Ha;
      (destruct Hres as [->| ->]; simpl in Hc, Hi, Ha |- *;
       (split; [lia|]); (split; [lia|]); right;
       (destruct Ha as [[-> Ha]|Ha]; [rewrite Ha, Hc, Hi; simpl; f_equal; lia|exact Ha])).
Qed.

(** C6 (amended).  Starting from a row whose counters and accuracy are 0,
    after N gradings agreeing with a winning trade and M agreeing with a
    losing one (no NEUTRAL verdicts, no disagreement), the stored accuracy
    is 100*N/(N+M) rounded to one decimal place, and 0 when N+M = 0. *)
Theorem grade_all_accuracy (m : string)
    (gs : list (list (string * Verdict) * Verdict * Outcome * Q))
    (t : gmap string CouncilRow) (r0 : CouncilRow) :
  t !! m = Some r0 -> correct r0 = 0%Z -> incorrect r0 = 0%Z -> accuracy r0 = 0 ->
  Forall (fun g => let '(vs, d, res, rr) := g in
            NoDup (map fst vs) /\ In (m, d) vs /\ d <> NEUTRAL /\ (res = WIN \/ res = LOSS)) gs ->
  let N := count_result WIN gs in
  let M := count_result LOSS gs in
  option_map accuracy (grade_all t gs !! m) =
  Some (if (0 <? N + M)%Z then round_nd (100 * inject_Z N / inject_Z (N + M)) 1 else 0).
Proof.
  intros Ht Hc0 Hi0 Ha0 Hall. cbv zeta.
  destruct (grade_all_counts m gs t r0 Ht Hall) as (r & Hr & Hc & Hi & Ha).
  rewrite Hr. simpl. rewrite Hc0 in Hc. rewrite Hi0 in Hi. rewrite Z.add_0_l in Hc, Hi.
  destruct Ha as [[H Ha]|Ha].
  - rewrite Ha, Ha0. rewrite H. reflexivity.
  - rewrite Ha, Hc, Hi. unfold compute_accuracy. cbv zeta.
    destruct (0 <? count_result WIN gs + count_result LOSS gs)%Z; [|reflexivity].
    f_equal. apply round_nd_comp. unfold Qdiv. ring.
Qed.

Lemma grade_all_accuracy_witness :
  option_map accuracy (grade_all (init_council empty) one_win_two_losses !! "trend") =
  Some (round_nd (100 * inject_Z 1 / inject_Z (1 + 2)) 1).
Proof.
  apply (grade_all_accuracy "trend" one_win_two_losses (init_council empty) default_row).
  - vm_compute. reflexivity.
  - reflexivity.
  - reflexivity.
  - reflexivity.
  - repeat constructor; try (intros Hx; inversion Hx); discriminate.
Defined.

Lemma recompute_row_consistent (r : CouncilRow) :
  consistent r -> recompute_row r = r.
Proof.
  destruct r as [c i n tr tc acc ex w]. intros [Ha He]. simpl in *.
  unfold recompute_row. simpl. rewrite Ha, He. reflexivity.
Qed.

(** C9.  grade_council with a result other than WIN and LOSS (EXPIRED,
    PENDING, ERROR): on a table whose derived columns agree with their
    counters (as after init_council or any earlier grade_council), every
    member with a NEUTRAL verdict gets neutral + 1 and nothing else, and
    every other row is left exactly as it was. *)
Theorem grade_council_other_result_frame (t : gmap string CouncilRow)
    (vs : list (string * Verdict)) (d : Verdict) (res : Outcome) (rr : Q) :
  res <> WIN -> res <> LOSS -> NoDup (map fst vs) ->
  map_Forall (fun _ r => consistent r) t ->
  forall m : string,
    (In (m, NEUTRAL) vs -> grade_council t vs d res rr !! m = inc_neutral <$> t !! m) /\
    (~ In (m, NEUTRAL) vs -> grade_council t vs d res rr !! m = t !! m).
Proof.
  intros Hw Hl Hnd Hcons m.
  assert (Hrow : forall r, t !! m = Some r -> recompute_row r = r).
  { intros r Hr. apply recompute_row_consistent. exact (Hcons m r Hr). }
  split.
  - intros Hin. rewrite (grade_council_lookup t vs d res rr m NEUTRAL Hnd Hin).
    destruct (t !! m) as [r|] eqn:Hr; [|reflexivity]. simpl. f_equal.
    destruct r as [c i n tr tc acc ex w]. destruct (Hcons m _ Hr) as [Ha He].
    simpl in Ha, He. unfold recompute_row; simpl. rewrite Ha, He. reflexivity.
  - intros Hnin.
    destruct (in_dec (fun a b : string => decide (a = b)) m (map fst vs)) as [Hm|Hm].
    + apply in_map_iff in Hm. destruct Hm as [[k v] [Hk Hin]]. simpl in Hk. subst k.
      rewrite (grade_council_lookup t vs d res rr m v Hnd Hin).
      destruct (t !! m) as [r|] eqn:Hr; [|reflexivity]. simpl. f_equal.
      assert (Hid : grade_effect d res rr v r = r).
      { unfold grade_effect. destruct v; [| |contradiction];
          destruct (negb _); try reflexivity; destruct res; congruence. }
      rewrite Hid. apply Hrow. reflexivity.
    + unfold grade_council. rewrite lookup_fmap, fold_grade_notin by exact Hm.
      destruct (t !! m) as [r|] eqn:Hr; [|reflexivity]. simpl. f_equal.
      apply Hrow. reflexivity.
Qed.

Lemma grade_council_other_result_frame_witness :
  grade_council (init_council empty) [("trend", NEUTRAL); ("rsi", BUY)] BUY EXPIRED 0
    !! "trend" = inc_neutral <$> (init_council empty !! "trend") /\
  grade_council (init_council empty) [("trend", NEUTRAL); ("rsi", BUY)] BUY EXPIRED 0
    !! "rsi" = init_council empty !! "rsi".
Proof.
  assert (Hnd : NoDup (map fst [("trend", NEUTRAL); ("rsi", BUY)])).
  { repeat constructor; try (intros Hx; inversion Hx as [|? ? ? Hy]; inversion Hy);
      discriminate. }
  assert (Hc : map_Forall (fun _ r => consistent r) (init_council empty)).
  { apply init_council_consistent. apply map_Forall_empty. }
  split.
  - apply (proj1 (grade_council_other_result_frame (init_council empty)
                    [("trend", NEUTRAL); ("rsi", BUY)] BUY EXPIRED 0
                    ltac:(discriminate) ltac:(discriminate) Hnd Hc "trend")).
    simpl. left. reflexivity.
  - apply (proj2 (grade_council_other_result_frame (init_council empty)
                    [("trend", NEUTRAL); ("rsi", BUY)] BUY EXPIRED 0
                    ltac:(discriminate) ltac:(discriminate) Hnd Hc "rsi")).
    simpl. intros [H|[H|H]]; [discriminate|discriminate|exact H].
Defined.

End CouncilFacts.

(** ** Verdict aggregator *)

Module AggregateFacts.
Import Aggregate.

(** The spec's end-to-end example, with the thresholds of
    config.example.py (buy 2.0): trend and rsi BUY score 1.5, below 2.0, so
    the technical verdict is NEUTRAL. *)
Example aggregate_trend_rsi_buy :
  aggregate_verdicts_with_macro [("trend", BUY); ("rsi", BUY)] NEUTRAL
  = (NEUTRAL, 3 # 2, 50%Z, false).
Proof. vm_compute. reflexivity. Qed.

Lemma tally_sell_length (vs : list (string * Verdict)) (acc : Tally) :
  length (sell_modules (fold_left tally_step vs acc)) =
  (length (sell_modules acc) + count_verdict SELL vs)%nat.
Proof.
  revert acc. induction vs as [|[m v] vs IH]; intros acc; simpl; [unfold count_verdict; simpl; lia|].
  rewrite IH. unfold count_verdict. simpl.
  destruct v; simpl; rewrite ?length_app; simpl; lia.
Qed.

(** C10.  When the technical verdict is NEUTRAL the confidence is
    base + (number of SELL votes) * half_weight, clamped to [30, cap]: SELL
    votes raise it, BUY votes do not enter it, and the macro verdict does
    not change it. *)
Theorem aggregate_neutral_confidence (vs : list (string * Verdict))
    (macro_verdict : Verdict) :
  technical_of (total_score (tally vs)) = NEUTRAL ->
  let '(final_verdict, _, confidence, _) := aggregate_verdicts_with_macro vs macro_verdict in
  final_verdict = NEUTRAL /\
  confidence =
    Z.max (Z.min (CONF_BASE + Z.of_nat (count_verdict SELL vs) * CONF_HALF_WEIGHT) CONF_CAP) 30.
Proof.
  intros Ht. unfold aggregate_verdicts_with_macro. cbv zeta. rewrite Ht.
  unfold tally. rewrite tally_sell_length. simpl.
  destruct macro_verdict; split; reflexivity.
Qed.

Lemma aggregate_neutral_confidence_witness :
  technical_of (total_score (tally [("trend", BUY); ("rsi", SELL); ("sr", SELL)])) = NEUTRAL /\
  let '(final_verdict, _, confidence, _) :=
    aggregate_verdicts_with_macro [("trend", BUY); ("rsi", SELL); ("sr", SELL)] BUY in
  final_verdict = NEUTRAL /\
  confidence =
    Z.max (Z.min (CONF_BASE + Z.of_nat (count_verdict SELL
       [("trend", BUY); ("rsi", SELL); ("sr", SELL)]) * CONF_HALF_WEIGHT) CONF_CAP) 30.
Proof.
  split; [vm_compute; reflexivity|].
  apply aggregate_neutral_confidence. vm_compute. reflexivity.
Defined.

End AggregateFacts.

(** ** Rounding bounds *)

Lemma round_half_even_le_floor_succ (q : Q) : (round_half_even q <= Qfloor q + 1)%Z.
Proof.
  unfold round_half_even.
  destruct (q - inject_Z (Qfloor q) ?= 1 # 2); try lia.
  destruct (Z.even (Qfloor q)); lia.
Qed.

(** Rounding a value between two integers stays between them. *)
Lemma round_half_even_between (a b : Z) (q : Q) :
  inject_Z a <= q -> q <= inject_Z b -> (a <= round_half_even q <= b)%Z.
Proof.
  intros Ha Hb.
  pose proof (Qfloor_resp_le _ _ Ha) as Fa. rewrite Qfloor_Z in Fa.
  pose proof (Qfloor_resp_le _ _ Hb) as Fb. rewrite Qfloor_Z in Fb.
  pose proof (round_half_even_ge_floor q). pose proof (round_half_even_le_floor_succ q).
  split; [lia|].
  destruct (Z.eq_dec (Qfloor q) b) as [E|E]; [|lia].
  assert (Hq : q == inject_Z b).
  { pose proof (Qfloor_le q) as F. rewrite E in F. apply Qle_antisym; assumption. }
  rewrite (round_half_even_Z q b Hq). lia.
Qed.

(** round(q) is within one half of q. *)
Lemma round_half_even_err (q : Q) :
  inject_Z (round_half_even q) - (1 # 2) <= q /\ q <= inject_Z (round_half_even q) + (1 # 2).
Proof.
  pose proof (Qfloor_le q) as F1. pose proof (Qlt_floor q) as F2.
  rewrite inject_Z_plus in F2. change (inject_Z 1) with 1 in F2.
  unfold round_half_even. cbv zeta.
  destruct (Qcompare_spec (q - inject_Z (Qfloor q)) (1 # 2)) as [H|H|H].
  - destruct (Z.even (Qfloor q)); rewrite ?inject_Z_plus; change (inject_Z 1) with 1;
      split; lra.
  - split; lra.
  - rewrite inject_Z_plus. change (inject_Z 1) with 1. split; lra.
Qed.

(** round(q, 2) is within half a cent of q. *)
Lemma round_nd_2_err (q : Q) : q - (1 # 200) <= round_nd q 2 /\ round_nd q 2 <= q + (1 # 200).
Proof.
  unfold round_nd. rewrite Qred_correct. change (10 ^ Z.of_nat 2)%Z with 100%Z.
  destruct (round_half_even_err (q * inject_Z 100)) as [H1 H2].
  change (inject_Z 100) with (100 # 1) in *. unfold Qdiv.
  change (/ (100 # 1)) with (1 # 100). split; lra.
Qed.

(** round(q, n) of a value in [0, 100] stays in [0, 100], for n = 1. *)
Lemma round_nd_1_percent (q : Q) : 0 <= q -> q <= 100 -> 0 <= round_nd q 1 /\ round_nd q 1 <= 100.
Proof.
  intros H0 H1. unfold round_nd. rewrite Qred_correct. change (10 ^ Z.of_nat 1)%Z with 10%Z.
  destruct (round_half_even_between 0 1000 (q * inject_Z 10)) as [R1 R2];
    [change (inject_Z 10) with (10 # 1); change (inject_Z 0) with 0; lra
    |change (inject_Z 10) with (10 # 1); change (inject_Z 1000) with (1000 # 1); lra|].
  rewrite Zle_Qle in R1, R2. change (inject_Z 0) with 0 in R1.
  change (inject_Z 1000) with (1000 # 1) in R2.
  change (inject_Z 10) with (10 # 1) in *. unfold Qdiv. change (/ (10 # 1)) with (1 # 10).
  split; lra.
Qed.

(** ** Trade planner: lot size, short history, gain and loss *)

Module TradePlanMore.
Import TradePlan.

(** calculate_lot_size always returns a lot size between the broker's
    minimum (0.01) and maximum (50), whatever the risk amount and the stop
    distance (zero, negative, or so large that the raw size rounds to 0). *)
Theorem calculate_lot_size_bounds (risk : Q) (s : Z) :
  BROKER_MIN_LOT <= calculate_lot_size risk s /\ calculate_lot_size risk s <= BROKER_MAX_LOT.
Proof.
  unfold calculate_lot_size. destruct (s <=? 0)%Z.
  { unfold BROKER_MIN_LOT, BROKER_MAX_LOT. split; lra. }
  cbv zeta.
  set (L := Qmax BROKER_MIN_LOT (Qmin _ BROKER_MAX_LOT)).
  assert (HL1 : BROKER_MIN_LOT <= L) by apply Q.le_max_l.
  assert (HL2 : L <= BROKER_MAX_LOT).
  { apply Q.max_lub; [unfold BROKER_MIN_LOT, BROKER_MAX_LOT; lra|apply Q.le_min_r]. }
  unfold BROKER_MIN_LOT, BROKER_MAX_LOT in *.
  unfold round_nd. rewrite Qred_correct. change (10 ^ Z.of_nat 2)%Z with 100%Z.
  change (inject_Z 100) with (100 # 1).
  destruct (round_half_even_between 1 5000 (L * (100 # 1))) as [R1 R2];
    [change (inject_Z 1) with 1; lra|change (inject_Z 5000) with (5000 # 1); lra|].
  rewrite Zle_Qle in R1, R2. change (inject_Z 1) with 1 in R1.
  change (inject_Z 5000) with (5000 # 1) in R2.
  unfold Qdiv. change (/ (100 # 1)) with (1 # 100). split; lra.
Qed.

Lemma true_ranges_from_length (c : Q) (df : list Bar) :
  length (true_ranges_from c df) = length df.
Proof.
  revert c. induction df as [|b df IH]; intros c; simpl; [reflexivity|]. now rewrite IH.
Qed.

Lemma true_ranges_length (df : list Bar) : length (true_ranges df) = length df.
Proof.
  destruct df as [|b df]; simpl; [reflexivity|]. now rewrite true_ranges_from_length.
Qed.

(** create_trade_plan raises (round() of the NaN ATR) exactly when the
    history has between 1 and 13 bars, fewer than ATR_PERIOD; with no bars
    at all it returns None. *)
Theorem create_trade_plan_raises_iff (m : RiskMode) (df : list Bar) (d : Verdict) (bal : Q) :
  (create_trade_plan m df d bal = PlanRaises <-> (1 <= length df < ATR_PERIOD)%nat) /\
  create_trade_plan m [] d bal = PlanNone.
Proof.
  split; [|reflexivity].
  destruct df as [|b df'].
  - unfold create_trade_plan. simpl. split; [discriminate|lia].
  - unfold create_trade_plan.
    destruct (last (b :: df')) as [lb|] eqn:El;
      [|apply last_None in El; discriminate].
    pose proof (true_ranges_length (b :: df')) as Hlen.
    unfold calculate_atr. cbv zeta.
    destruct (true_ranges (b :: df')) as [|t ts] eqn:Et; [simpl in Hlen; discriminate|].
    rewrite Hlen.
    destruct (length (b :: df') <? ATR_PERIOD)%nat eqn:Hl.
    + apply Nat.ltb_lt in Hl. split; [intros _; simpl in *; lia|reflexivity].
    + apply Nat.ltb_ge in Hl. split; [|lia].
      destruct (Qle_bool _ 0); [discriminate|]. destruct d; discriminate.
Qed.

Lemma create_trade_plan_loss_gain (m : RiskMode) (df : list Bar) (d : Verdict)
    (bal : Q) (p : Plan) :
  create_trade_plan m df d bal = PlanSome p ->
  exists q, potential_loss p = round_nd q 2 /\ potential_gain p = round_nd (2 * q) 2.
Proof.
  unfold create_trade_plan.
  destruct (last df) as [lb|]; [|discriminate].
  destruct (calculate_atr df ATR_PERIOD) as [| |a]; try discriminate.
  destruct (Qle_bool a 0); [discriminate|]. cbv zeta.
  set (s := round_half_even (ATR_MULTIPLIER * a / PIP_SIZE)).
  assert (Ht : round_half_even (RR_TARGET * inject_Z s) = (2 * s)%Z).
  { apply round_half_even_Z. rewrite inject_Z_mult. reflexivity. }
  rewrite Ht.
  destruct d; intros H; injection H as <-; cbn [potential_loss potential_gain];
    (eexists; split; [reflexivity|]); apply round_nd_comp; rewrite inject_Z_mult;
    change (inject_Z 2) with 2; ring.
Qed.

(** The reported potential gain and potential loss of a plan are each
    rounded to cents from stop_pips * lots and tp_pips * lots with
    tp_pips = 2 * stop_pips: the gain is twice the loss up to 1.5 cents. *)
Theorem create_trade_plan_gain_vs_loss (m : RiskMode) (df : list Bar) (d : Verdict)
    (bal : Q) (p : Plan) :
  create_trade_plan m df d bal = PlanSome p ->
  2 * potential_loss p - (3 # 200) <= potential_gain p /\
  potential_gain p <= 2 * potential_loss p + (3 # 200).
Proof.
  intros H. destruct (create_trade_plan_loss_gain m df d bal p H) as (q & Hl & Hg).
  rewrite Hl, Hg.
  destruct (round_nd_2_err q). destruct (round_nd_2_err (2 * q)). split; lra.
Qed.

Lemma create_trade_plan_gain_vs_loss_witness :
  exists p, create_trade_plan RISK_MODE dollar_range_bars SELL 20 = PlanSome p /\
  2 * potential_loss p - (3 # 200) <= potential_gain p /\
  potential_gain p <= 2 * potential_loss p + (3 # 200).
Proof.
  eexists. split; [vm_compute; reflexivity|].
  apply (create_trade_plan_gain_vs_loss RISK_MODE dollar_range_bars SELL 20).
  vm_compute. reflexivity.
Defined.

End TradePlanMore.

(** ** Outcome verifier: what the result depends on, and its shape *)

Module VerifyMore.
Import Verify.

Lemma scan_candles_none (dir : Verdict) (sl_price tp_price : Q) (i : Z) (rows : list Bar) :
  Forall (no_trigger dir sl_price tp_price) rows ->
  scan_candles dir sl_price tp_price i rows = None.
Proof.
  intros H. rewrite <- (app_nil_r rows).
  rewrite (VerifyFacts.scan_candles_skip dir sl_price tp_price i rows [] H). reflexivity.
Qed.

Lemma scan_candles_target (dir : Verdict) (sl_price tp_price : Q) (i : Z)
    (c : Bar) (rest : list Bar) :
  stop_hit dir sl_price c = false -> target_hit dir tp_price c = true ->
  scan_candles dir sl_price tp_price i (c :: rest) =
  Some (mkResult WIN (Some tp_price) (i + 1) 2 None).
Proof.
  unfold stop_hit, target_hit. intros Hs Ht.
  destruct dir; simpl; rewrite Hs, Ht; reflexivity.
Qed.

Lemma scan_candles_shape (dir : Verdict) (sl_price tp_price : Q) (i : Z)
    (rows : list Bar) (r : VerifyResult) :
  scan_candles dir sl_price tp_price i rows = Some r ->
  ((result r = WIN /\ exit_price r = Some tp_price) \/
   (result r = LOSS /\ exit_price r = Some sl_price)) /\
  (i + 1 <= bars r <= i + Z.of_nat (length rows))%Z.
Proof.
  revert i. induction rows as [|c rows IH]; intros i H; simpl in H; [discriminate|].
  assert (Hstep : forall r', r' = mkResult LOSS (Some sl_price) (i + 1) (-1) None \/
                             r' = mkResult WIN (Some tp_price) (i + 1) 2 None ->
            Some r' = Some r ->
            ((result r = WIN /\ exit_price r = Some tp_price) \/
             (result r = LOSS /\ exit_price r = Some sl_price)) /\
            (i + 1 <= bars r <= i + Z.of_nat (length (c :: rows)))%Z).
  { intros r' Hr' E. injection E as <-. simpl length.
    destruct Hr' as [->| ->]; simpl; split; auto; lia. }
  assert (Hrec : scan_candles dir sl_price tp_price (i + 1) rows = Some r ->
            ((result r = WIN /\ exit_price r = Some tp_price) \/
             (result r = LOSS /\ exit_price r = Some sl_price)) /\
            (i + 1 <= bars r <= i + Z.of_nat (length (c :: rows)))%Z).
  { intros E. destruct (IH _ E) as [Hres Hb]. split; [exact Hres|]. simpl length. lia. }
  destruct dir;
    repeat match type of H with
    | context [if ?b then _ else _] => destruct b
    end;
    first [exact (Hrec H) | exact (Hstep _ (or_introl eq_refl) H)
          | exact (Hstep _ (or_intror eq_refl) H)].
Qed.

(** verify_trade_realtime on a DataFrame, written over the bars stamped
    strictly after the entry time. *)
Lemma verify_trade_realtime_df (now : Z) (et : DateTime) (dir : Verdict)
    (entry_price sl_price tp_price : Q) (df : list Bar) :
  verify_trade_realtime now et dir entry_price sl_price tp_price (FetchDf df) =
  if negb (Qle_bool (inject_Z (now - to_utc et) / 60) (inject_Z VERIFICATION_WINDOW_BARS))
  then mkResult EXPIRED None VERIFICATION_WINDOW_BARS 0 None
  else match List.filter (fun c => Z.ltb (to_utc et) (bar_time c)) df with
       | [] => no_hit 0
       | rows => match scan_candles dir sl_price tp_price 0 rows with
                 | Some r => r
                 | None => no_hit (Z.of_nat (length rows))
                 end
       end.
Proof.
  unfold verify_trade_realtime. cbv zeta.
  destruct (negb _); [reflexivity|]. destruct df as [|b df]; [reflexivity|].
  destruct (List.filter _ (b :: df)); reflexivity.
Qed.

(** The verifier returns EXPIRED exactly when more than
    VERIFICATION_WINDOW_BARS minutes have passed since the entry time:
    no other path produces EXPIRED. *)
Theorem verify_expired_iff (now : Z) (et : DateTime) (dir : Verdict)
    (entry_price sl_price tp_price : Q) (fetch : Fetch) :
  result (verify_trade_realtime now et dir entry_price sl_price tp_price fetch) = EXPIRED <->
  inject_Z VERIFICATION_WINDOW_BARS < inject_Z (now - to_utc et) / 60.
Proof.
  unfold verify_trade_realtime. cbv zeta.
  destruct (Qle_bool (inject_Z (now - to_utc et) / 60) (inject_Z VERIFICATION_WINDOW_BARS))
    eqn:E; simpl negb; cbv iota.
  - apply Qle_bool_iff in E. split.
    + intros H. exfalso.
      destruct fetch as [msg| |[|c df]]; try discriminate.
      destruct (List.filter _ (c :: df)) as [|c1 l]; [discriminate|].
      destruct (scan_candles dir sl_price tp_price 0 (c1 :: l)) as [r|] eqn:Es; [|discriminate].
      destruct (scan_candles_shape _ _ _ _ _ _ Es) as [[[Hr _]|[Hr _]] _]; congruence.
    + intros H. exfalso. exact (Qlt_not_le _ _ H E).
  - split; [intros _|reflexivity].
    apply Qnot_le_lt. intros Hle. apply Qle_bool_iff in Hle. congruence.
Qed.

(** Only the bars stamped strictly after the entry time matter: two
    DataFrames with the same such bars, in the same order, give the same
    result (bars at or before the entry are never scanned). *)
Theorem verify_depends_only_on_post_entry_bars (now : Z) (et : DateTime) (dir : Verdict)
    (entry_price sl_price tp_price : Q) (df1 df2 : list Bar) :
  List.filter (fun c => Z.ltb (to_utc et) (bar_time c)) df1 =
  List.filter (fun c => Z.ltb (to_utc et) (bar_time c)) df2 ->
  verify_trade_realtime now et dir entry_price sl_price tp_price (FetchDf df1) =
  verify_trade_realtime now et dir entry_price sl_price tp_price (FetchDf df2).
Proof.
  intros H. rewrite !verify_trade_realtime_df, H. reflexivity.
Qed.

Lemma verify_depends_only_on_post_entry_bars_witness :
  verify_trade_realtime 600 (mkDateTime 0 None) BUY 2650 2645 2660
    (FetchDf (mkBar 0 2650 2700 2600 2650 0 :: scenario_bars)) =
  verify_trade_realtime 600 (mkDateTime 0 None) BUY 2650 2645 2660
    (FetchDf scenario_bars).
Proof.
  apply verify_depends_only_on_post_entry_bars. reflexivity.
Defined.

(** Within the window, when no bar after the entry meets the stop or the
    target condition (in particular when there is none), the verifier
    returns PENDING with no exit price, rr 0, and bars = the number of bars
    after the entry; with no data at all (None) it returns PENDING with
    bars = 0. *)
Theorem verify_no_trigger_pending (now : Z) (et : DateTime) (dir : Verdict)
    (entry_price sl_price tp_price : Q) (df : list Bar) :
  inject_Z (now - to_utc et) / 60 <= inject_Z VERIFICATION_WINDOW_BARS ->
  Forall (no_trigger dir sl_price tp_price)
    (List.filter (fun c => Z.ltb (to_utc et) (bar_time c)) df) ->
  verify_trade_realtime now et dir entry_price sl_price tp_price (FetchDf df) =
  mkResult PENDING None
    (Z.of_nat (length (List.filter (fun c => Z.ltb (to_utc et) (bar_time c)) df))) 0 None /\
  verify_trade_realtime now et dir entry_price sl_price tp_price FetchNone =
  mkResult PENDING None 0 0 None.
Proof.
  intros Hw Hall. apply Qle_bool_iff in Hw. split.
  - rewrite verify_trade_realtime_df, Hw. simpl negb. cbv iota.
    destruct (List.filter _ df) as [|c l]; [reflexivity|].
    cbv zeta. rewrite (scan_candles_none _ _ _ _ _ Hall). reflexivity.
  - unfold verify_trade_realtime. cbv zeta. rewrite Hw. reflexivity.
Qed.

Lemma verify_no_trigger_pending_witness :
  verify_trade_realtime 600 (mkDateTime 0 None) BUY 2650 2600 2700
    (FetchDf scenario_bars) = mkResult PENDING None 4 0 None /\
  verify_trade_realtime 600 (mkDateTime 0 None) BUY 2650 2600 2700 FetchNone =
  mkResult PENDING None 0 0 None.
Proof.
  apply (verify_no_trigger_pending 600 (mkDateTime 0 None) BUY 2650 2600 2700 scenario_bars).
  - apply Qle_bool_iff. reflexivity.
  - repeat constructor.
Defined.

(** If bar k (1-based) after the entry is the first to meet either
    condition and it meets the target but not the stop, the verifier
    returns WIN at the target price with bars = k and rr 2. *)
Theorem verify_first_target_is_win (now : Z) (et : DateTime) (dir : Verdict)
    (entry_price sl_price tp_price : Q) (df pre : list Bar) (c : Bar) (rest : list Bar) :
  inject_Z (now - to_utc et) / 60 <= inject_Z VERIFICATION_WINDOW_BARS ->
  List.filter (fun b => Z.ltb (to_utc et) (bar_time b)) df = pre ++ c :: rest ->
  Forall (no_trigger dir sl_price tp_price) pre ->
  stop_hit dir sl_price c = false ->
  target_hit dir tp_price c = true ->
  verify_trade_realtime now et dir entry_price sl_price tp_price (FetchDf df) =
  mkResult WIN (Some tp_price) (Z.of_nat (length pre) + 1) 2 None.
Proof.
  intros Hw Hf Hpre Hs Ht. apply Qle_bool_iff in Hw.
  rewrite verify_trade_realtime_df, Hw. simpl negb. cbv iota. rewrite Hf. cbv zeta.
  destruct (pre ++ c :: rest) as [|b l] eqn:E; [destruct pre; discriminate|]. rewrite <- E.
  rewrite (VerifyFacts.scan_candles_skip dir sl_price tp_price 0 pre (c :: rest) Hpre).
  rewrite (scan_candles_target dir sl_price tp_price _ c rest Hs Ht).
  reflexivity.
Qed.

Lemma verify_first_target_is_win_witness :
  verify_trade_realtime 600 (mkDateTime 0 None) BUY 2650 2600 2654
    (FetchDf scenario_bars) = mkResult WIN (Some 2654) 2 2 None.
Proof.
  apply (verify_first_target_is_win 600 (mkDateTime 0 None) BUY 2650 2600 2654
           scenario_bars (firstn 1 scenario_bars) (nth 1 scenario_bars (mkBar 0 0 0 0 0 0))
           (skipn 2 scenario_bars)).
  - apply Qle_bool_iff. reflexivity.
  - reflexivity.
  - repeat constructor.
  - reflexivity.
  - reflexivity.
Defined.

(** Whatever the inputs, a WIN exits at the target price and a LOSS at the
    stop price, and both come from a DataFrame, with bars between 1 and the
    number of bars after the entry. *)
Theorem verify_hit_shape (now : Z) (et : DateTime) (dir : Verdict)
    (entry_price sl_price tp_price : Q) (fetch : Fetch) :
  let r := verify_trade_realtime now et dir entry_price sl_price tp_price fetch in
  (result r = WIN -> exit_price r = Some tp_price) /\
  (result r = LOSS -> exit_price r = Some sl_price) /\
  (result r = WIN \/ result r = LOSS ->
   exists df, fetch = FetchDf df /\
     (1 <= bars r <= Z.of_nat (length (List.filter (fun c => Z.ltb (to_utc et) (bar_time c)) df)))%Z).
Proof.
  cbv zeta.
  destruct fetch as [msg| |df].
  1,2: unfold verify_trade_realtime; cbv zeta; destruct (negb _); simpl;
       repeat split; intros H; exfalso; intuition discriminate.
  rewrite verify_trade_realtime_df.
  destruct (negb _); [simpl; repeat split; intros H; exfalso; intuition discriminate|].
  destruct (List.filter _ df) as [|c l] eqn:Ef;
    [simpl; repeat split; intros H; exfalso; intuition discriminate|].
  cbv zeta. destruct (scan_candles dir sl_price tp_price 0 (c :: l)) as [r|] eqn:Es;
    [|simpl; repeat split; intros H; exfalso; intuition discriminate].
  destruct (scan_candles_shape _ _ _ _ _ _ Es) as [Hres Hb].
  split; [|split].
  - intros Hw. destruct Hres as [[_ He]|[Hl _]]; [exact He|congruence].
  - intros Hl. destruct Hres as [[Hw _]|[_ He]]; [congruence|exact He].
  - intros _. exists df. split; [reflexivity|]. rewrite Ef. lia.
Qed.

End VerifyMore.

(** ** Level ledger: the appended row, and compositions *)

Module LevelsMore.
Import Verify Levels.

Lemma update_level_shape (mode : RiskMode) (table : list LevelRow) (pnl : Q) (res : Outcome) :
  let s := fst (update_level mode table pnl res) in
  update_level mode table pnl res =
  (s, table ++ [mkRow (level s) (balance s) (target s) res mode]).
Proof.
  cbv zeta. unfold update_level. cbv zeta.
  destruct (get_current_level table) as [l b t].
  destruct mode; [destruct res|]; simpl;
    repeat match goal with |- context [if ?c then _ else _] => destruct c end;
    reflexivity.
Qed.

(** update_level appends exactly one row to the table, keeps every earlier
    row, and afterwards get_current_level returns the state that
    update_level returned. *)
Theorem update_level_appends_current (mode : RiskMode) (table : list LevelRow) (pnl : Q)
    (res : Outcome) :
  exists row, snd (update_level mode table pnl res) = table ++ [row] /\
  get_current_level (snd (update_level mode table pnl res)) = fst (update_level mode table pnl res).
Proof.
  rewrite (update_level_shape mode table pnl res). simpl.
  eexists. split; [reflexivity|].
  unfold get_current_level. rewrite last_snoc.
  destruct (fst (update_level mode table pnl res)); reflexivity.
Qed.

(** In LEVEL_STRICT mode a WIN followed by a LOSS (any pnl) brings the
    level back to where it was. *)
Theorem update_level_strict_win_then_loss (table : list LevelRow) (pnl1 pnl2 : Q) :
  (1 <= level (get_current_level table))%Z ->
  level (fst (update_level LEVEL_STRICT (snd (update_level LEVEL_STRICT table pnl1 WIN))
                pnl2 LOSS)) = level (get_current_level table).
Proof.
  intros Hl.
  rewrite (update_level_shape LEVEL_STRICT table pnl1 WIN). simpl snd.
  unfold update_level at 1. cbv zeta.
  unfold get_current_level at 1. rewrite last_snoc. simpl.
  unfold update_level. simpl. destruct (get_current_level table) as [l b t].
  simpl in *. lia.
Qed.

Lemma update_level_strict_win_then_loss_witness :
  (1 <= level (get_current_level []))%Z /\
  level (fst (update_level LEVEL_STRICT (snd (update_level LEVEL_STRICT [] 0 WIN)) 0 LOSS)) =
  level (get_current_level []).
Proof.
  split; [vm_compute; discriminate|].
  apply update_level_strict_win_then_loss. vm_compute. discriminate.
Defined.

(** In MILESTONE ("SAFER") mode, from a positive balance, a non-negative
    pnl never lowers the level: the level goes up by one when
    balance + pnl reaches the target and stays the same otherwise. *)
Theorem update_level_milestone_gain (table : list LevelRow) (pnl : Q) (res : Outcome) :
  0 < balance (get_current_level table) -> 0 <= pnl ->
  let cur := get_current_level table in
  level (fst (update_level SAFER table pnl res)) =
  if Qle_bool (target cur) (balance cur + pnl) then (level cur + 1)%Z else level cur.
Proof.
  intros Hb Hp. cbv zeta. unfold update_level. cbv zeta.
  destruct (get_current_level table) as [l b t]. simpl in *.
  destruct (Qle_bool t (b + pnl)); [reflexivity|].
  destruct (Qle_bool (b + pnl) (b / (6 # 5))) eqn:E; [|reflexivity].
  apply Qle_bool_iff in E. unfold Qdiv in E. change (/ (6 # 5)) with (5 # 6) in E. lra.
Qed.

Lemma update_level_milestone_gain_witness :
  0 < balance (get_current_level []) /\ 0 <= 5 /\
  level (fst (update_level SAFER [] 5 WIN)) =
  if Qle_bool (target (get_current_level [])) (balance (get_current_level []) + 5)
  then (level (get_current_level []) + 1)%Z else level (get_current_level []).
Proof.
  split; [vm_compute; reflexivity|]. split; [vm_compute; discriminate|].
  apply update_level_milestone_gain; vm_compute; [reflexivity|discriminate].
Defined.

End LevelsMore.

(** ** Council ledger: membership, disagreement, accuracy range *)

Module CouncilMore.
Import Verify Council.

Lemma fold_init_some (ms : list string) (t : gmap string CouncilRow) (m : string)
    (r : CouncilRow) :
  t !! m = Some r -> fold_left init_step ms t !! m = Some r.
Proof.
  revert t. induction ms as [|a ms IH]; intros t Ht; simpl; [exact Ht|].
  apply IH. unfold init_step. destruct (t !! a) eqn:Ea; [exact Ht|].
  rewrite lookup_insert_ne; [exact Ht|]. intros ->. congruence.
Qed.

Lemma fold_init_in (ms : list string) (t : gmap string CouncilRow) (m : string) :
  In m ms -> t !! m = None -> fold_left init_step ms t !! m = Some default_row.
Proof.
  revert t. induction ms as [|a ms IH]; intros t Hin Ht; [destruct Hin|]. simpl.
  unfold init_step at 2. destruct (t !! a) eqn:Ea.
  - destruct Hin as [->|Hin]; [congruence|]. apply IH; assumption.
  - destruct (decide (a = m)) as [->|Hne].
    + apply fold_init_some. apply lookup_insert_eq.
    + destruct Hin as [->|Hin]; [contradiction|].
      apply IH; [exact Hin|]. rewrite lookup_insert_ne by exact Hne. exact Ht.
Qed.

Lemma fold_init_notin (ms : list string) (t : gmap string CouncilRow) (m : string) :
  ~ In m ms -> fold_left init_step ms t !! m = t !! m.
Proof.
  revert t. induction ms as [|a ms IH]; intros t Hm; simpl in Hm |- *; [reflexivity|].
  rewrite IH by tauto. unfold init_step. destruct (t !! a); [reflexivity|].
  apply lookup_insert_ne. intros ->. tauto.
Qed.

(** init_council (INSERT OR IGNORE): an existing row is never overwritten,
    every member without a row gets the default row (all counters 0,
    weight 1), and keys that are not members are left alone. *)
Theorem init_council_rows (t : gmap string CouncilRow) :
  (forall m r, t !! m = Some r -> init_council t !! m = Some r) /\
  (forall m, In m members -> t !! m = None -> init_council t !! m = Some default_row) /\
  (forall m, ~ In m members -> init_council t !! m = t !! m).
Proof.
  change (init_council t) with (fold_left init_step members t).
  split; [|split].
  - intros m r. apply fold_init_some.
  - intros m. apply fold_init_in.
  - intros m. apply fold_init_notin.
Qed.

Lemma grade_module_None (d : Verdict) (res : Outcome) (rr : Q)
    (t : gmap string CouncilRow) (mv : string * Verdict) (m : string) :
  grade_module d res rr t mv !! m = None <-> t !! m = None.
Proof.
  destruct mv as [k v]. unfold grade_module.
  destruct v; try (destruct (negb _); [reflexivity|]; destruct res);
    try reflexivity; apply lookup_alter_None.
Qed.

(** grade_council never creates a row: a member without a row before has
    none after, and one with a row keeps one. *)
Theorem grade_council_no_new_rows (t : gmap string CouncilRow)
    (vs : list (string * Verdict)) (d : Verdict) (res : Outcome) (rr : Q) (m : string) :
  grade_council t vs d res rr !! m = None <-> t !! m = None.
Proof.
  unfold grade_council. rewrite lookup_fmap, fmap_None.
  revert t. induction vs as [|mv vs IH]; intros t; simpl; [reflexivity|].
  rewrite IH. apply grade_module_None.
Qed.

(** A module whose BUY/SELL verdict disagrees with the trade direction is
    not scored: its row is left exactly as it was, whatever the result (on
    a table whose derived columns agree with their counters). *)
Theorem grade_council_disagree_unchanged (t : gmap string CouncilRow)
    (vs : list (string * Verdict)) (d : Verdict) (res : Outcome) (rr : Q)
    (m : string) (v : Verdict) :
  NoDup (map fst vs) -> In (m, v) vs -> v <> NEUTRAL -> v <> d ->
  map_Forall (fun _ r => consistent r) t ->
  grade_council t vs d res rr !! m = t !! m.
Proof.
  intros Hnd Hin Hv Hd Hcons.
  rewrite (CouncilFacts.grade_council_lookup t vs d res rr m v Hnd Hin).
  destruct (t !! m) as [r|] eqn:Hr; [|reflexivity]. simpl. f_equal.
  assert (Hid : grade_effect d res rr v r = r).
  { unfold grade_effect. destruct v, d; try contradiction; try congruence; reflexivity. }
  rewrite Hid. apply CouncilFacts.recompute_row_consistent. exact (Hcons m r Hr).
Qed.

Lemma grade_council_disagree_unchanged_witness :
  grade_council (init_council empty) [("trend", SELL); ("rsi", BUY)] BUY WIN 2 !! "trend" =
  init_council empty !! "trend".
Proof.
  apply (grade_council_disagree_unchanged _ _ _ _ _ "trend" SELL).
  - repeat constructor; try (intros Hx; inversion Hx as [|? ? ? Hy]; inversion Hy);
      discriminate.
  - left. reflexivity.
  - discriminate.
  - discriminate.
  - apply CouncilFacts.init_council_consistent. apply map_Forall_empty.
Defined.

Lemma compute_accuracy_bounds (c i : Z) :
  (0 <= c)%Z -> (0 <= i)%Z -> 0 <= compute_accuracy c i /\ compute_accuracy c i <= 100.
Proof.
  intros Hc Hi. unfold compute_accuracy. cbv zeta.
  destruct (0 <? c + i)%Z eqn:E; [|split; vm_compute; discriminate].
  apply Z.ltb_lt in E.
  assert (Hn : 0 < inject_Z (c + i)).
  { change 0 with (inject_Z 0). rewrite <- Zlt_Qlt. exact E. }
  assert (H0 : 0 <= inject_Z c / inject_Z (c + i)).
  { apply Qle_shift_div_l; [exact Hn|]. rewrite Qmult_0_l.
    change 0 with (inject_Z 0). rewrite <- Zle_Qle. exact Hc. }
  assert (H1 : inject_Z c / inject_Z (c + i) <= 1).
  { apply Qle_shift_div_r; [exact Hn|]. rewrite Qmult_1_l.
    rewrite <- Zle_Qle. lia. }
  apply round_nd_1_percent; lra.
Qed.

Lemma grade_module_nonneg (d : Verdict) (res : Outcome) (rr : Q)
    (t : gmap string CouncilRow) (mv : string * Verdict) :
  map_Forall (fun _ r => counters_nonneg r) t ->
  map_Forall (fun _ r => counters_nonneg r) (grade_module d res rr t mv).
Proof.
  intros Ht k r Hk. destruct mv as [mm v].
  destruct (decide (mm = k)) as [->|Hne].
  - rewrite CouncilFacts.grade_module_lookup_eq in Hk.
    destruct (t !! k) as [r0|] eqn:E; simpl in Hk; [|discriminate].
    injection Hk as <-. destruct (Ht k r0 E) as (Hc & Hi & Hn & Htc).
    unfold grade_effect, counters_nonneg.
    destruct v; try (destruct (negb _)); try destruct res; simpl; lia.
  - rewrite CouncilFacts.grade_module_lookup_ne in Hk by exact Hne. exact (Ht k r Hk).
Qed.

Lemma fold_grade_module_nonneg (d : Verdict) (res : Outcome) (rr : Q)
    (t : gmap string CouncilRow) (vs : list (string * Verdict)) :
  map_Forall (fun _ r => counters_nonneg r) t ->
  map_Forall (fun _ r => counters_nonneg r) (fold_left (grade_module d res rr) vs t).
Proof.
  revert t. induction vs as [|mv vs IH]; intros t Ht; simpl; [exact Ht|].
  apply IH. apply grade_module_nonneg. exact Ht.
Qed.

(** On a table whose counters are non-negative (as after init_council),
    grade_council keeps them non-negative, and every stored accuracy lies
    between 0 and 100. *)
Theorem grade_council_accuracy_range (t : gmap string CouncilRow)
    (vs : list (string * Verdict)) (d : Verdict) (res : Outcome) (rr : Q) :
  map_Forall (fun _ r => counters_nonneg r) t ->
  map_Forall (fun _ r => counters_nonneg r /\ 0 <= accuracy r /\ accuracy r <= 100)
    (grade_council t vs d res rr).
Proof.
  intros Ht k r Hk. unfold grade_council in Hk. rewrite lookup_fmap in Hk.
  assert (Hf : map_Forall (fun _ r => counters_nonneg r)
                 (fold_left (grade_module d res rr) vs t))
    by (apply fold_grade_module_nonneg; exact Ht).
  destruct (fold_left (grade_module d res rr) vs t !! k) as [r0|] eqn:E;
    simpl in Hk; [|discriminate].
  injection Hk as <-. destruct (Hf k r0 E) as (Hc & Hi & Hn & Htc).
  split; [repeat split; assumption|]. apply compute_accuracy_bounds; assumption.
Qed.

Lemma init_council_nonneg (t : gmap string CouncilRow) :
  map_Forall (fun _ r => counters_nonneg r) t ->
  map_Forall (fun _ r => counters_nonneg r) (init_council t).
Proof.
  unfold init_council. generalize members as ms.
  intros ms. revert t. induction ms as [|mb ms IH]; intros t Ht; simpl; [exact Ht|].
  apply IH. destruct (t !! mb); [exact Ht|].
  apply map_Forall_insert_2; [repeat split; simpl; lia|exact Ht].
Qed.

Lemma grade_council_accuracy_range_witness :
  map_Forall (fun _ r => counters_nonneg r /\ 0 <= accuracy r /\ accuracy r <= 100)
    (grade_council (init_council empty) [("trend", BUY); ("rsi", SELL)] BUY LOSS (-1)).
Proof.
  apply grade_council_accuracy_range.
  apply init_council_nonneg. apply map_Forall_empty.
Defined.

End CouncilMore.

(** ** Council ledger: grading is not idempotent *)

Module CouncilTwice.
Import Verify Council.

(** grade_council does not guard against being called twice for the same
    trade: grading the same winning trade twice credits an agreeing module
    twice (correct + 2, trade_count + 2, total_r + 2 * rr). *)
Theorem grade_council_twice_counts_twice (t : gmap string CouncilRow)
    (vs : list (string * Verdict)) (d : Verdict) (rr : Q) (m : string) (r : CouncilRow) :
  NoDup (map fst vs) -> In (m, d) vs -> d <> NEUTRAL -> t !! m = Some r ->
  option_map (fun r' => (correct r', trade_count r', total_r r'))
    (grade_council (grade_council t vs d WIN rr) vs d WIN rr !! m) =
  Some ((correct r + 2)%Z, (trade_count r + 2)%Z, total_r r + rr + rr).
Proof.
  intros Hnd Hin Hd Hr.
  rewrite (CouncilFacts.grade_council_lookup _ vs d WIN rr m d Hnd Hin).
  rewrite (CouncilFacts.grade_council_lookup t vs d WIN rr m d Hnd Hin), Hr.
  simpl. unfold grade_effect.
  destruct d; [| |contradiction]; simpl; do 3 f_equal; lia.
Qed.

Lemma grade_council_twice_counts_twice_witness :
  option_map (fun r' => (correct r', trade_count r', total_r r'))
    (grade_council (grade_council (init_council empty) [("trend", BUY)] BUY WIN 2)
       [("trend", BUY)] BUY WIN 2 !! "trend") =
  Some ((correct default_row + 2)%Z, (trade_count default_row + 2)%Z,
        total_r default_row + 2 + 2).
Proof.
  apply grade_council_twice_counts_twice.
  - repeat constructor. intros Hx. inversion Hx.
  - left. reflexivity.
  - discriminate.
  - vm_compute. reflexivity.
Defined.

End CouncilTwice.

(** ** Verdict aggregator: macro gate, confidence range, vote counts *)

Module AggregateMore.
Import Aggregate.

(** The macro gate: macro_adjusted is set exactly when the technical verdict
    is BUY and the macro verdict SELL, or the reverse; then the final
    verdict is NEUTRAL, and otherwise it is the technical verdict.  So the
    final verdict never opposes the macro verdict, and a NEUTRAL macro
    verdict changes nothing. *)
Theorem aggregate_macro_gate (vs : list (string * Verdict)) (macro_verdict : Verdict) :
  let technical_verdict := technical_of (total_score (tally vs)) in
  let '(final_verdict, _, _, macro_adjusted) := aggregate_verdicts_with_macro vs macro_verdict in
  (macro_adjusted = true <->
     (technical_verdict = BUY /\ macro_verdict = SELL) \/
     (technical_verdict = SELL /\ macro_verdict = BUY)) /\
  (macro_adjusted = true -> final_verdict = NEUTRAL) /\
  (macro_adjusted = false -> final_verdict = technical_verdict) /\
  ~ (final_verdict = BUY /\ macro_verdict = SELL) /\
  ~ (final_verdict = SELL /\ macro_verdict = BUY).
Proof.
  unfold aggregate_verdicts_with_macro. cbv zeta.
  destruct (technical_of (total_score (tally vs))), macro_verdict; simpl;
    intuition discriminate.
Qed.

(** With no module verdicts the aggregator returns NEUTRAL, score 0,
    confidence CONF_BASE = 50 and no macro adjustment, whatever the macro
    verdict. *)
Theorem aggregate_empty (macro_verdict : Verdict) :
  aggregate_verdicts_with_macro [] macro_verdict = (NEUTRAL, 0, 50%Z, false).
Proof. destruct macro_verdict; vm_compute; reflexivity. Qed.

Lemma weight_of_bounds (m : string) : 0 <= weight_of m /\ weight_of m <= 1.
Proof.
  unfold weight_of.
  destruct (find (fun kv => bool_decide (kv.1 = m)) WEIGHTS) as [[k w]|] eqn:E;
    [|split; lra].
  apply find_some in E. destruct E as [Hin _]. unfold WEIGHTS in Hin.
  repeat (destruct Hin as [Hin|Hin]; [injection Hin as <- <-; split; lra|]).
  destruct Hin.
Qed.

Lemma tally_score_bounds (vs : list (string * Verdict)) (acc : Tally) :
  total_score acc - inject_Z (Z.of_nat (count_verdict SELL vs)) <=
    total_score (fold_left tally_step vs acc) /\
  total_score (fold_left tally_step vs acc) <=
    total_score acc + inject_Z (Z.of_nat (count_verdict BUY vs)).
Proof.
  revert acc. induction vs as [|[m v] vs IH]; intros acc; simpl.
  - unfold count_verdict. simpl. change (inject_Z (Z.of_nat 0)) with 0. split; lra.
  - destruct (IH (tally_step acc (m, v))) as [H1 H2].
    pose proof (weight_of_bounds m) as [W0 W1].
    unfold count_verdict in *. simpl in *.
    destruct v; simpl in *; rewrite ?Nat2Z.inj_succ, ?inject_Z_succ in *;
      unfold Z.succ in *; rewrite ?inject_Z_plus in *; change (inject_Z 1) with 1 in *;
      split; lra.
Qed.

(** A technical BUY needs at least two BUY votes and a technical SELL at
    least two SELL votes: every weight is at most 1 and the thresholds are
    +2 and -2.  (The macro gate can only turn these into NEUTRAL.) *)
Theorem aggregate_needs_two_votes (vs : list (string * Verdict)) :
  (technical_of (total_score (tally vs)) = BUY -> (2 <= count_verdict BUY vs)%nat) /\
  (technical_of (total_score (tally vs)) = SELL -> (2 <= count_verdict SELL vs)%nat).
Proof.
  destruct (tally_score_bounds vs (mkTally 0 [] [])) as [H1 H2].
  change (fold_left tally_step vs (mkTally 0 [] [])) with (tally vs) in H1, H2.
  simpl total_score in H1, H2.
  unfold technical_of, BUY_THRESHOLD, SELL_THRESHOLD.
  split; intros Ht.
  - destruct (Qle_bool 2 (total_score (tally vs))) eqn:E; [|destruct (Qle_bool _ (-2)); discriminate].
    apply Qle_bool_iff in E.
    assert (Hq : inject_Z 2 <= inject_Z (Z.of_nat (count_verdict BUY vs))).
    { change (inject_Z 2) with 2. lra. }
    rewrite <- Zle_Qle in Hq. lia.
  - destruct (Qle_bool 2 (total_score (tally vs))); [discriminate|].
    destruct (Qle_bool (total_score (tally vs)) (-2)) eqn:E; [|discriminate].
    apply Qle_bool_iff in E.
    assert (Hq : inject_Z 2 <= inject_Z (Z.of_nat (count_verdict SELL vs))).
    { change (inject_Z 2) with 2. lra. }
    rewrite <- Zle_Qle in Hq. lia.
Qed.

Lemma tally_buy_length (vs : list (string * Verdict)) (acc : Tally) :
  length (buy_modules (fold_left tally_step vs acc)) =
  (length (buy_modules acc) + count_verdict BUY vs)%nat.
Proof.
  revert acc. induction vs as [|[m v] vs IH]; intros acc; simpl; [unfold count_verdict; simpl; lia|].
  rewrite IH. unfold count_verdict. simpl.
  destruct v; simpl; rewrite ?length_app; simpl; lia.
Qed.

(** A BUY or SELL final verdict comes with a confidence of at least 60:
    it is min(50 + 5 * (votes for that direction) + 10 if the macro verdict
    agrees, 90), and a directional verdict needs at least two votes for its
    direction.  A contrary macro verdict never reaches this case: the macro
    gate has already turned it into NEUTRAL. *)
Theorem aggregate_directional_confidence (vs : list (string * Verdict))
    (macro_verdict : Verdict) :
  let '(final_verdict, _, confidence, _) := aggregate_verdicts_with_macro vs macro_verdict in
  (final_verdict = BUY ->
     (2 <= count_verdict BUY vs)%nat /\
     confidence =
       Z.min (CONF_BASE + Z.of_nat (count_verdict BUY vs) * CONF_HALF_WEIGHT +
              (if verdict_eqb macro_verdict BUY then CONF_MACRO_ALIGN else 0)) CONF_CAP /\
     (60 <= confidence)%Z) /\
  (final_verdict = SELL ->
     (2 <= count_verdict SELL vs)%nat /\
     confidence =
       Z.min (CONF_BASE + Z.of_nat (count_verdict SELL vs) * CONF_HALF_WEIGHT +
              (if verdict_eqb macro_verdict SELL then CONF_MACRO_ALIGN else 0)) CONF_CAP /\
     (60 <= confidence)%Z).
Proof.
  assert (HB : technical_of (total_score (tally vs)) = BUY -> (2 <= count_verdict BUY vs)%nat).
  { destruct (tally_score_bounds vs (mkTally 0 [] [])) as [_ H2].
    change (fold_left tally_step vs (mkTally 0 [] [])) with (tally vs) in H2.
    simpl total_score in H2. unfold technical_of, BUY_THRESHOLD, SELL_THRESHOLD.
    intros Ht.
    destruct (Qle_bool 2 (total_score (tally vs))) eqn:E; [|destruct (Qle_bool _ (-2)); discriminate].
    apply Qle_bool_iff in E.
    assert (Hq : inject_Z 2 <= inject_Z (Z.of_nat (count_verdict BUY vs))).
    { change (inject_Z 2) with 2. lra. }
    rewrite <- Zle_Qle in Hq. lia. }
  assert (HS : technical_of (total_score (tally vs)) = SELL -> (2 <= count_verdict SELL vs)%nat).
  { destruct (tally_score_bounds vs (mkTally 0 [] [])) as [H1 _].
    change (fold_left tally_step vs (mkTally 0 [] [])) with (tally vs) in H1.
    simpl total_score in H1. unfold technical_of, BUY_THRESHOLD, SELL_THRESHOLD.
    intros Ht.
    destruct (Qle_bool 2 (total_score (tally vs))); [discriminate|].
    destruct (Qle_bool (total_score (tally vs)) (-2)) eqn:E; [|discriminate].
    apply Qle_bool_iff in E.
    assert (Hq : inject_Z 2 <= inject_Z (Z.of_nat (count_verdict SELL vs))).
    { change (inject_Z 2) with 2. lra. }
    rewrite <- Zle_Qle in Hq. lia. }
  assert (LB : length (buy_modules (tally vs)) = count_verdict BUY vs).
  { unfold tally. rewrite tally_buy_length. reflexivity. }
  assert (LS : length (sell_modules (tally vs)) = count_verdict SELL vs).
  { unfold tally. rewrite AggregateFacts.tally_sell_length. reflexivity. }
  unfold aggregate_verdicts_with_macro. cbv zeta.
  destruct (technical_of (total_score (tally vs))) eqn:Ht;
    [specialize (HB eq_refl) | specialize (HS eq_refl) |];
    destruct macro_verdict; simpl; rewrite ?LB, ?LS;
    unfold CONF_BASE, CONF_HALF_WEIGHT, CONF_MACRO_ALIGN, CONF_MACRO_CONTRA, CONF_CAP;
    split; intros Hf; try discriminate; (split; [assumption|]); split; lia.
Qed.

End AggregateMore.

(** ** Percentages *)

Module HelpersMore.
Import Verify Helpers Council.



Lemma compute_accuracy_eq_percentage (c i : Z) :
  (0 <= c)%Z -> (0 <= i)%Z -> compute_accuracy c i = calculate_percentage c (c + i).
Proof.
  intros Hc Hi. unfold compute_accuracy, calculate_percentage. cbv zeta.
  destruct (c + i =? 0)%Z eqn:E.
  - apply Z.eqb_eq in E. rewrite E. reflexivity.
  - apply Z.eqb_neq in E. replace (0 <? c + i)%Z with true by (symmetry; apply Z.ltb_lt; lia).
    reflexivity.
Qed.

(** On a table with non-negative counters (as built by init_council),
    every row grade_council returns stores as its accuracy
    calculate_percentage(correct, correct + incorrect), computed from the
    updated counters. *)
Theorem grade_council_accuracy_is_percentage (t : gmap string CouncilRow)
    (vs : list (string * Verdict)) (d : Verdict) (res : Outcome) (rr : Q) :
  map_Forall (fun _ r => counters_nonneg r) t ->
  map_Forall (fun _ r => accuracy r = calculate_percentage (correct r) (correct r + incorrect r))
    (grade_council t vs d res rr).
Proof.
  intros Ht k r Hk. unfold grade_council in Hk. rewrite lookup_fmap in Hk.
  pose proof (CouncilMore.fold_grade_module_nonneg d res rr t vs Ht) as Hf.
  destruct (fold_left (grade_module d res rr) vs t !! k) as [r0|] eqn:E;
    simpl in Hk; [|discriminate].
  injection Hk as <-. destruct (Hf k r0 E) as (Hc & Hi & _ & _).
  simpl. apply compute_accuracy_eq_percentage; assumption.
Qed.

Lemma grade_council_accuracy_is_percentage_witness :
  map_Forall (fun _ r => accuracy r = calculate_percentage (correct r) (correct r + incorrect r))
    (grade_council (init_council empty) [("trend", BUY); ("rsi", SELL)] BUY LOSS (-1)).
Proof.
  apply grade_council_accuracy_is_percentage.
  apply CouncilMore.init_council_nonneg. apply map_Forall_empty.
Defined.

End HelpersMore.

(** ** The /grade command *)

Module GradeCommandFacts.
Import Verify Levels Council GradeCommand.

Lemma grade_trade_graded (st : GradeState) (vs : list (string * Verdict)) (d : Verdict)
    (rr_target risk_amount potential_gain : Q) (rd : VerifyResult) :
  st_result st <> None ->
  grade_trade st vs d rr_target risk_amount potential_gain rd = st.
Proof.
  intros H. unfold grade_trade. destruct (st_result st); [reflexivity|congruence].
Qed.

Lemma grade_trade_sets_result (st : GradeState) (vs : list (string * Verdict)) (d : Verdict)
    (rr_target risk_amount potential_gain : Q) (rd : VerifyResult) :
  result rd <> PENDING ->
  st_result (grade_trade st vs d rr_target risk_amount potential_gain rd) <> None.
Proof.
  intros Hp. unfold grade_trade. destruct (st_result st) eqn:E; [rewrite E; discriminate|].
  destruct (result rd); try congruence; simpl; discriminate.
Qed.

Lemma update_level_safer_balance (table : list LevelRow) (pnl : Q) (res : Outcome) :
  balance (fst (update_level SAFER table pnl res)) =
  round_nd (balance (get_current_level table) + pnl) 2.
Proof.
  unfold update_level. cbv zeta.
  destruct (get_current_level table) as [l b t]. simpl.
  destruct (Qle_bool t (b + pnl)); [reflexivity|].
  destruct (Qle_bool (b + pnl) (b / (6 # 5))); reflexivity.
Qed.

(** A result other than WIN and LOSS never touches the ledgers: the council
    table and the level table are left as they were.  PENDING leaves
    everything unchanged; EXPIRED and ERROR mark an ungraded trade as graded
    with that result and pnl 0. *)
Theorem grade_trade_other_result_keeps_ledgers (st : GradeState)
    (vs : list (string * Verdict)) (d : Verdict) (rr_target risk_amount potential_gain : Q)
    (rd : VerifyResult) :
  result rd <> WIN -> result rd <> LOSS ->
  let st' := grade_trade st vs d rr_target risk_amount potential_gain rd in
  st_council st' = st_council st /\ st_levels st' = st_levels st /\
  (result rd = PENDING -> st' = st) /\
  (st_result st = None -> result rd <> PENDING ->
   st_result st' = Some (result rd) /\ st_pnl st' = Some 0).
Proof.
  intros Hw Hl. cbv zeta. unfold grade_trade.
  destruct (st_result st) eqn:E.
  - split; [reflexivity|]. split; [reflexivity|]. split; [reflexivity|].
    intros H. discriminate.
  - destruct (result rd); try congruence; simpl; rewrite ?andb_false_r;
      (split; [reflexivity|]); (split; [reflexivity|]);
      (split; [intros H; first [reflexivity|discriminate]|]);
      intros _ Hp; try congruence; split; reflexivity.
Qed.

Lemma grade_trade_other_result_keeps_ledgers_witness :
  let st := mkGradeState None None None None (init_council empty) [] in
  let rd := mkResult ERROR None 0 0 (Some "timeout") in
  let st' := grade_trade st [("trend", BUY)] BUY 2 (1 # 5) (2 # 5) rd in
  st_council st' = st_council st /\ st_levels st' = st_levels st /\
  (result rd = PENDING -> st' = st) /\
  (st_result st = None -> result rd <> PENDING ->
   st_result st' = Some (result rd) /\ st_pnl st' = Some 0).
Proof.
  apply grade_trade_other_result_keeps_ledgers; discriminate.
Defined.

(** Grading is at most once: after any result other than PENDING (ERROR
    and EXPIRED included) the trade row carries a result, and every later
    /grade of that trade changes nothing, whatever the verifier returns
    then. *)
Theorem grade_trade_at_most_once (st : GradeState) (vs vs2 : list (string * Verdict))
    (d d2 : Verdict) (rr_target risk_amount potential_gain rr2 risk2 gain2 : Q)
    (rd rd2 : VerifyResult) :
  result rd <> PENDING ->
  let st1 := grade_trade st vs d rr_target risk_amount potential_gain rd in
  grade_trade st1 vs2 d2 rr2 risk2 gain2 rd2 = st1.
Proof.
  intros Hp. cbv zeta. apply grade_trade_graded. apply grade_trade_sets_result. exact Hp.
Qed.

Lemma grade_trade_at_most_once_witness :
  let st1 := grade_trade (mkGradeState None None None None (init_council empty) [])
               [("trend", BUY)] BUY 2 (1 # 5) (2 # 5) (mkResult LOSS (Some 2645) 3 (-1) None) in
  grade_trade st1 [("trend", BUY)] BUY 2 (1 # 5) (2 # 5) (mkResult WIN (Some 2660) 5 2 None)
  = st1.
Proof.
  apply grade_trade_at_most_once. discriminate.
Defined.

(** With the configured RISK_MODE ("SAFER"), grading an ungraded trade
    appends exactly one row to the level table; the current balance moves
    by potential_gain on a WIN and by -risk_amount on a LOSS, rounded to
    cents. *)
Theorem grade_trade_level_balance (st : GradeState) (vs : list (string * Verdict))
    (d : Verdict) (rr_target risk_amount potential_gain : Q) (rd : VerifyResult) :
  st_result st = None -> result rd = WIN \/ result rd = LOSS ->
  let st' := grade_trade st vs d rr_target risk_amount potential_gain rd in
  (exists row, st_levels st' = st_levels st ++ [row]) /\
  balance (get_current_level (st_levels st')) =
  round_nd (balance (get_current_level (st_levels st)) +
            (if outcome_eqb (result rd) WIN then potential_gain else - risk_amount)) 2.
Proof.
  intros Hn Hr. cbv zeta. unfold grade_trade. rewrite Hn.
  assert (Hlev : forall pnl res,
            (exists row, snd (update_level RISK_MODE (st_levels st) pnl res) =
                         st_levels st ++ [row]) /\
            balance (get_current_level (snd (update_level RISK_MODE (st_levels st) pnl res))) =
            round_nd (balance (get_current_level (st_levels st)) + pnl) 2).
  { intros pnl res.
    rewrite (LevelsMore.update_level_shape RISK_MODE (st_levels st) pnl res). simpl.
    split; [eexists; reflexivity|].
    unfold get_current_level at 1. rewrite last_snoc. simpl.
    apply update_level_safer_balance. }
  destruct Hr as [E|E]; rewrite E; simpl; apply Hlev.
Qed.

Lemma grade_trade_level_balance_witness :
  let st := mkGradeState None None None None (init_council empty) [] in
  let rd := mkResult WIN (Some 2660) 3 2 None in
  let st' := grade_trade st [("trend", BUY)] BUY 2 (1 # 5) (2 # 5) rd in
  (exists row, st_levels st' = st_levels st ++ [row]) /\
  balance (get_current_level (st_levels st')) =
  round_nd (balance (get_current_level (st_levels st)) +
            (if outcome_eqb (result rd) WIN then 2 # 5 else - (1 # 5))) 2.
Proof.
  apply grade_trade_level_balance; [reflexivity|left; reflexivity].
Defined.

End GradeCommandFacts.

(** ** Verdict aggregator: BUY and SELL are treated alike *)

Module AggregateMirror.
Import Aggregate Mirror.

Lemma tally_flip (vs : list (string * Verdict)) (acc acc' : Tally) :
  total_score acc' == - total_score acc ->
  buy_modules acc' = sell_modules acc -> sell_modules acc' = buy_modules acc ->
  total_score (fold_left tally_step (flip_verdicts vs) acc') ==
    - total_score (fold_left tally_step vs acc) /\
  buy_modules (fold_left tally_step (flip_verdicts vs) acc') =
    sell_modules (fold_left tally_step vs acc) /\
  sell_modules (fold_left tally_step (flip_verdicts vs) acc') =
    buy_modules (fold_left tally_step vs acc).
Proof.
  revert acc acc'. induction vs as [|[m v] vs IH]; intros acc acc' Ht Hb Hs; simpl;
    [auto|].
  apply IH; destruct v; simpl; rewrite ?Ht, ?Hb, ?Hs; try reflexivity; ring.
Qed.

Lemma technical_of_opp (t t' : Q) :
  t' == - t -> technical_of t' = flip_verdict (technical_of t).
Proof.
  intros H. unfold technical_of, BUY_THRESHOLD, SELL_THRESHOLD.
  assert (E3 : Qle_bool 2 t' = Qle_bool t (-2)).
  { apply Bool.eq_iff_eq_true. rewrite !Qle_bool_iff. split; intros; lra. }
  assert (E4 : Qle_bool t' (-2) = Qle_bool 2 t).
  { apply Bool.eq_iff_eq_true. rewrite !Qle_bool_iff. split; intros; lra. }
  rewrite E3, E4.
  destruct (Qle_bool 2 t) eqn:A, (Qle_bool t (-2)) eqn:B; simpl; try reflexivity.
  apply Qle_bool_iff in A, B. lra.
Qed.

(** Exchanging BUY and SELL in every module verdict and in the macro
    verdict exchanges them in the final verdict, negates the score and
    leaves the macro_adjusted flag unchanged; the confidence is unchanged
    when the technical verdict is BUY or SELL.  (With a NEUTRAL technical
    verdict it is not: the confidence then counts the SELL votes only.) *)
Theorem aggregate_mirror (vs : list (string * Verdict)) (macro_verdict : Verdict) :
  let '(f, s, c, a) := aggregate_verdicts_with_macro vs macro_verdict in
  let '(f', s', c', a') :=
    aggregate_verdicts_with_macro (flip_verdicts vs) (flip_verdict macro_verdict) in
  f' = flip_verdict f /\ s' == - s /\ a' = a /\
  (technical_of (total_score (tally vs)) <> NEUTRAL -> c' = c).
Proof.
  destruct (tally_flip vs (mkTally 0 [] []) (mkTally 0 [] [])) as (Ht & Hb & Hs);
    [simpl; reflexivity|reflexivity|reflexivity|].
  change (fold_left tally_step (flip_verdicts vs) (mkTally 0 [] []))
    with (tally (flip_verdicts vs)) in Ht, Hb, Hs.
  change (fold_left tally_step vs (mkTally 0 [] [])) with (tally vs) in Ht, Hb, Hs.
  unfold aggregate_verdicts_with_macro. cbv zeta.
  rewrite (technical_of_opp _ _ Ht), Hb, Hs.
  rewrite (round_nd_comp _ _ 1 Ht).
  destruct (technical_of (total_score (tally vs))), macro_verdict; simpl;
    (split; [reflexivity|]); (split; [apply round_nd_1_opp|]);
    (split; [reflexivity|]); intros Hn; solve [reflexivity|contradiction Hn; reflexivity].
Qed.

End AggregateMirror.
